(** * extcap: the command-mode dispatcher of [application.go]

    A shallow embedding of [App.Run], [App.mainAction] and [openPipe]
    (package [extcap]) together with the two sentinel errors of [errors.go].

    The dispatcher is effectful Go code: it calls caller-supplied function
    fields, prints to standard output, may terminate the process and may
    panic.  It is embedded in a small monad [M] that threads the heap of
    option objects, records every observable action as an [Event] and ends
    in an [Outcome] (normal return, panic, process exit). *)

From Stdlib Require Import ZArith.
From stdpp Require Import base option list strings pretty gmap fin_maps.

Local Open Scope Z_scope.
Local Open Scope string_scope.

(** ** Errors ([errors.go] and the Go [error] interface) *)

(** Go [error] values the dispatcher can see.  The two sentinels are the
    package variables of [errors.go]; [Errorf] is the result of
    [fmt.Errorf (prefix ++ ": %w", inner)]; [CallerError] stands for any
    error value made by the caller's callbacks or by the operating
    system. *)
Inductive Error : Type :=
| ErrNoInterfaceSpecified
| ErrNoPipeProvided
| Errorf (prefix : string) (inner : Error)
| CallerError (msg : string).

#[global] Instance Error_eq_dec : EqDecision Error.
Proof. solve_decision. Defined.

(** [err.Error()]: the message text. *)
Fixpoint Error_text (e : Error) : string :=
  match e with
  | ErrNoInterfaceSpecified => "no interface specified"
  | ErrNoPipeProvided => "no FIFO pipe provided"
  | Errorf prefix inner => prefix ++ ": " ++ Error_text inner
  | CallerError msg => msg
  end.

(** [errors.Unwrap]. *)
Definition Unwrap (e : Error) : option Error :=
  match e with
  | Errorf _ inner => Some inner
  | _ => None
  end.

(** ** Domain objects

    [VersionInfo], [CaptureInterface], [DLT], the [ConfigOption] interface
    and its implementations are declared in files of the package other
    than [application.go]; [application.go] uses their fields and methods
    only. *)

(** Modelled from the spec: the [VersionInfo] struct (its declaration is
    not in [application.go]); the two fields are the ones [App.Run]
    defaults. *)
Record VersionInfo : Type := mkVersionInfo {
  Info : string;
  Help : string
}.

(** Modelled from the spec: the [CaptureInterface] struct, "value (stable
    machine identifier), display name". *)
Record CaptureInterface : Type := mkCaptureInterface {
  iface_value : string;
  iface_display : string
}.

(** Modelled from the spec: the [DLT] struct, "numeric link-layer type
    code, protocol name, display name". *)
Record DLT : Type := mkDLT {
  dlt_number : Z;
  dlt_name : string;
  dlt_display : string
}.

(** Modelled from the spec: the fields every option variant shares: the
    ordinal assigned at render time, the flag name, the description and
    the required flag. *)
Record OptCommon : Type := mkOptCommon {
  opt_number : Z;
  opt_call : string;
  opt_display : string;
  opt_required : bool
}.

(** Modelled from the spec: the dynamic types behind the [ConfigOption]
    interface.  The three variants are the cases of the type switch in
    [App.Run]; [ConfigOtherOpt] is any other implementation of the
    interface (the switch has a [default] case for it), identified by the
    type name [%T] prints. *)
Inductive ConfigOption : Type :=
| ConfigStringOpt (c : OptCommon) (defaultValue : string)
| ConfigBoolOpt (c : OptCommon) (defaultValue : bool)
| ConfigIntegerOpt (c : OptCommon) (defaultValue : Z)
| ConfigOtherOpt (typeName : string) (c : OptCommon).

(** Modelled from the spec: the shared fields of an option and the
    update of the ordinal among them. *)
Definition common (o : ConfigOption) : OptCommon :=
  match o with
  | ConfigStringOpt c _ | ConfigBoolOpt c _ | ConfigIntegerOpt c _
  | ConfigOtherOpt _ c => c
  end.

Definition with_number (n : Z) (c : OptCommon) : OptCommon :=
  {| opt_number := n; opt_call := opt_call c;
     opt_display := opt_display c; opt_required := opt_required c |}.

(** Modelled from the spec: the interface methods [call()], [display()]
    and [isRequired()] that [App.Run] calls: the flag name, the
    description, whether the option is mandatory. *)
Definition call (o : ConfigOption) : string := opt_call (common o).
Definition display (o : ConfigOption) : string := opt_display (common o).
Definition isRequired (o : ConfigOption) : bool := opt_required (common o).

(** Modelled from the spec: [setNumber], the method that stores the
    ordinal position in the option object. *)
Definition setNumber (n : Z) (o : ConfigOption) : ConfigOption :=
  match o with
  | ConfigStringOpt c d => ConfigStringOpt (with_number n c) d
  | ConfigBoolOpt c d => ConfigBoolOpt (with_number n c) d
  | ConfigIntegerOpt c d => ConfigIntegerOpt (with_number n c) d
  | ConfigOtherOpt t c => ConfigOtherOpt t (with_number n c)
  end.

(** The ordinal an option object carries. *)
Definition number (o : ConfigOption) : Z := opt_number (common o).

(** The values handed to [fmt.Println] by the dispatcher. *)
Inductive Printable : Type :=
| PVersion (v : VersionInfo)
| PInterface (i : CaptureInterface)
| PDLT (d : DLT)
| POption (o : ConfigOption).

Definition bool_text (b : bool) : string := if b then "true" else "false".

(** Modelled from the spec: the [String()] methods, following the line
    grammar of the text protocol.  The spec fixes no text for the version
    line ("free-text rendering") nor for an unsupported option variant, so
    those have no rendering here. *)
Definition String_CaptureInterface (i : CaptureInterface) : string :=
  "interface {value=" ++ iface_value i ++ "}{display=" ++ iface_display i ++ "}".

Definition String_DLT (d : DLT) : string :=
  "dlt {number=" ++ pretty (dlt_number d) ++ "}{name=" ++ dlt_name d
  ++ "}{display=" ++ dlt_display d ++ "}".

Definition arg_line (c : OptCommon) (type default : string) : string :=
  "arg {number=" ++ pretty (opt_number c) ++ "}{call=--" ++ opt_call c
  ++ "}{display=" ++ opt_display c ++ "}{type=" ++ type
  ++ "}{default=" ++ default
  ++ "}{required=" ++ bool_text (opt_required c) ++ "}".

Definition String_ConfigOption (o : ConfigOption) : option string :=
  match o with
  | ConfigStringOpt c d => Some (arg_line c "string" d)
  | ConfigBoolOpt c d => Some (arg_line c "boolean" (bool_text d))
  | ConfigIntegerOpt c d => Some (arg_line c "integer" (pretty d))
  | ConfigOtherOpt _ _ => None
  end.

Definition render (p : Printable) : option string :=
  match p with
  | PVersion _ => None
  | PInterface i => Some (String_CaptureInterface i)
  | PDLT d => Some (String_DLT d)
  | POption o => String_ConfigOption o
  end.

(** ** The flag library ([github.com/urfave/cli/v2]) at its interface *)

(** A Go [interface{}] holding a flag's parsed value, as [ctx.Value]
    returns it ([VNil] when the name is not a flag of the context). *)
Inductive Value : Type :=
| VNil
| VString (s : string)
| VBool (b : bool)
| VInt (n : Z).

#[global] Instance Value_eq_dec : EqDecision Value.
Proof. solve_decision. Defined.

(** [*cli.Context], seen through the methods [mainAction] calls on it;
    [ctx_ShowAppHelp] is what [cli.ShowAppHelp ctx] returns. *)
Record Context : Type := mkContext {
  ctx_IsSet : string → bool;
  ctx_String : string → string;
  ctx_Value : string → Value;
  ctx_FlagNames : list string;
  ctx_ShowAppHelp : option Error
}.

(** The flag declarations [App.Run] builds. *)
Inductive Flag : Type :=
| StringFlag (Name Usage : string) (Required : bool) (Value : string)
| BoolFlag (Name Usage : string) (Required : bool) (Value : bool)
| IntFlag (Name Usage : string) (Required : bool) (Value : Z).

(** An [io.WriteCloser]: the nil interface or an open sink, identified by
    a handle. *)
Inductive WriteCloser : Type :=
| nilWriteCloser
| Sink (handle : N).

#[global] Instance WriteCloser_eq_dec : EqDecision WriteCloser.
Proof. solve_decision. Defined.

(** ** Effects *)

(** Option objects live on the heap: the callbacks return slices of
    pointers ([*ConfigStringOpt], ...), and [setNumber] writes through
    them.  A pointer without an object is the nil interface value. *)
Definition loc : Type := positive.
Abbreviation Heap := (gmap loc ConfigOption).

(** What the dispatcher does that can be observed from outside: calls of
    the caller's function fields (with their arguments), lines printed,
    the help screen. *)
Inductive Event : Type :=
| EvGetAllConfigOptions
| EvGetInterfaces
| EvGetDLT (iface : string)
| EvGetConfigOptions (iface : string)
| EvOpenPipe (name : string)
| EvOsOpenFile (name : string)
| EvStartCapture (iface : string) (fifo : WriteCloser) (filter : string)
                 (opts : gmap string Value)
| EvPrintln (p : Printable)
| EvShowAppHelp
| EvStderr (e : Error).

Inductive PanicValue : Type :=
| NilDereference
| PanicString (msg : string).

(** How a piece of Go code ends: it returns, it panics, or it terminates
    the process with [os.Exit]. *)
Inductive Outcome (A : Type) : Type :=
| Ret (a : A)
| Panicked (v : PanicValue)
| Exited (code : Z).
Arguments Ret {A} a.
Arguments Panicked {A} v.
Arguments Exited {A} code.

Record Res (A : Type) : Type := mkRes {
  events : list Event;
  heap_after : Heap;
  outcome : Outcome A
}.
Arguments mkRes {A} events heap_after outcome.
Arguments events {A} r.
Arguments heap_after {A} r.
Arguments outcome {A} r.

(** A computation starts from a heap and yields the actions it performed,
    the heap it left and how it ended.  After a panic or an exit nothing
    further runs. *)
Definition M (A : Type) : Type := Heap → Res A.

#[global] Instance M_ret : MRet M := λ A a h, mkRes [] h (Ret a).

#[global] Instance M_bind : MBind M := λ A B f m h,
  let r := m h in
  match outcome r with
  | Ret a =>
      let r' := f a (heap_after r) in
      mkRes (events r ++ events r') (heap_after r') (outcome r')
  | Panicked v => mkRes (events r) (heap_after r) (Panicked v)
  | Exited c => mkRes (events r) (heap_after r) (Exited c)
  end.

(** The primitive steps: record an action, panic, exit, read an object
    through a pointer (a nil pointer panics), write one. *)
Definition emit (e : Event) : M unit := λ h, mkRes [e] h (Ret tt).
Definition panic {A} (v : PanicValue) : M A := λ h, mkRes [] h (Panicked v).
Definition os_Exit {A} (code : Z) : M A := λ h, mkRes [] h (Exited code).
Definition load (l : loc) : M ConfigOption := λ h,
  match h !! l with
  | Some o => mkRes [] h (Ret o)
  | None => mkRes [] h (Panicked NilDereference)
  end.
(** The dynamic value behind an interface value, for a type switch. *)
Definition dynamic (l : loc) : M (option ConfigOption) := λ h,
  mkRes [] h (Ret (h !! l)).
Definition store (l : loc) (o : ConfigOption) : M unit := λ h,
  mkRes [] (<[l := o]> h) (Ret tt).

(** Calling a function field: a nil function value panics, otherwise the
    call is recorded and its result returned. *)
Definition invoke {F A} (f : option F) (e : Event) (run : F → A) : M A :=
  match f with
  | None => panic NilDereference
  | Some g => emit e;; mret (run g)
  end.

Definition fmt_Println (p : Printable) : M unit := emit (EvPrintln p).

(** ** The application ([App], lines 12-56) *)

(** A function field is [None] when the caller left it nil.  A callback
    is represented by what it returns to the dispatcher; the option
    objects it hands out are in the heap the dispatcher starts from, which
    the dispatcher does not look at before the callback has returned. *)

Record App : Type := mkApp {
  Usage : string;
  HelpPage : string;
  Version : VersionInfo;
  UsageExamples : list string;
  GetInterfaces : option (unit → list CaptureInterface * option Error);
  GetDLT : option (string → DLT * option Error);
  GetConfigOptions : option (string → list loc * option Error);
  GetAllConfigOptions : option (unit → list loc);
  StartCapture :
    option (string → WriteCloser → string → gmap string Value → option Error);
  OpenPipe : option (string → WriteCloser * option Error)
}.

(** What [application.go] takes from outside the package: the name
    [cli.NewApp] gives the application, [os.OpenFile] (called write-only,
    as a named pipe) and the [Run] method of [cli.App]. *)
Record CliApp : Type := mkCliApp {
  cli_Usage : string;
  cli_Description : string;
  cli_UsageText : string;
  cli_Flags : list Flag;
  cli_Action : Context → M (option Error)
}.

Record Env : Type := mkEnv {
  cli_Name : string;
  os_OpenFile : string → WriteCloser * option Error;
  cli_Run : CliApp → list string → M (option Error)
}.

(** ** Loops *)

(** [for _, x := range xs { body x }] *)
Fixpoint for_each {A} (xs : list A) (body : A → M unit) : M unit :=
  match xs with
  | [] => mret tt
  | x :: rest => body x;; for_each rest body
  end.

(** [for i := range xs { body i xs[i] }], counting from [i]. *)
Fixpoint for_range_from {A} (i : Z) (xs : list A) (body : Z → A → M unit)
  : M unit :=
  match xs with
  | [] => mret tt
  | x :: rest => body i x;; for_range_from (i + 1) rest body
  end.

Definition for_range {A} (xs : list A) (body : Z → A → M unit) : M unit :=
  for_range_from 0 xs body.

(** ** [openPipe] (lines 276-283) *)

Definition openPipe (env : Env) (name : string)
  : M (WriteCloser * option Error) :=
  emit (EvOsOpenFile name);;
  let '(pipe, err) := os_OpenFile env name in
  match err with
  | Some e => mret (nilWriteCloser, Some (Errorf "unable to open pipe" e))
  | None => mret (pipe, None)
  end.

(** ** [mainAction] (lines 172-274) *)

(** Lines 175-187: the body of [if ctx.IsSet("extcap-interfaces")]. *)
Definition listInterfaces (extapp : App) : M (option Error) :=
  '(ifaces, err) ← invoke (GetInterfaces extapp) EvGetInterfaces (λ f, f ());
  match err with
  | Some e => mret (Some e)
  | None =>
      fmt_Println (PVersion (Version extapp));;
      for_each ifaces (λ i, fmt_Println (PInterface i));;
      mret None
  end.

(** Lines 190-203: the body of [if ctx.IsSet("extcap-dlts")]. *)
Definition listDLTs (extapp : App) (ctx : Context) : M (option Error) :=
  if negb (ctx_IsSet ctx "extcap-interface") then
    mret (Some ErrNoInterfaceSpecified)
  else
    let iface := ctx_String ctx "extcap-interface" in
    '(dlt, err) ← invoke (GetDLT extapp) (EvGetDLT iface) (λ f, f iface);
    match err with
    | Some e => mret (Some e)
    | None => fmt_Println (PDLT dlt);; mret None
    end.

(** Lines 223-224, the body of the loop over the options: the ordinal is
    written through the pointer, then the object is printed as it then
    is. *)
Definition numberAndPrint (i : Z) (p : loc) : M unit :=
  o ← load p;
  store p (setNumber i o);;
  o' ← load p;
  fmt_Println (POption o').

(** Lines 206-228: the body of [if ctx.IsSet("extcap-config")]. *)
Definition listConfig (extapp : App) (ctx : Context) : M (option Error) :=
  match GetConfigOptions extapp with
  | None => mret None
  | Some getConfigOptions =>
      if negb (ctx_IsSet ctx "extcap-interface") then
        mret (Some ErrNoInterfaceSpecified)
      else
        let iface := ctx_String ctx "extcap-interface" in
        emit (EvGetConfigOptions iface);;
        let '(opts, err) := getConfigOptions iface in
        match err with
        | Some e => mret (Some e)
        | None =>
            for_range opts numberAndPrint;;
            mret None
        end
  end.

(** Lines 243-249: the options map, one entry per name of
    [ctx.FlagNames()] except the three skipped by [continue]. *)
Definition collectOpts (ctx : Context) : gmap string Value :=
  foldl (λ opts name,
           if (name =? "extcap-interface") || (name =? "fifo")
              || (name =? "extcap-capture-filter")
           then opts
           else <[name := ctx_Value ctx name]> opts)
        ∅ (ctx_FlagNames ctx).

(** Lines 231-266: the body of [if ctx.IsSet("capture")]. *)
Definition capture (env : Env) (extapp : App) (ctx : Context)
  : M (option Error) :=
  if negb (ctx_IsSet ctx "extcap-interface") then
    mret (Some ErrNoInterfaceSpecified)
  else if negb (ctx_IsSet ctx "fifo") then
    mret (Some ErrNoPipeProvided)
  else
    let iface := ctx_String ctx "extcap-interface" in
    let fifo := ctx_String ctx "fifo" in
    let filter := ctx_String ctx "extcap-capture-filter" in
    let opts := collectOpts ctx in
    let openPipeFunc :=
      match OpenPipe extapp with
      | None => openPipe env
      | Some f => λ name, emit (EvOpenPipe name);; mret (f name)
      end in
    '(pipe, err) ← openPipeFunc fifo;
    match err with
    | Some e => mret (Some e)
    | None =>
        err ← invoke (StartCapture extapp)
                     (EvStartCapture iface pipe filter opts)
                     (λ f, f iface pipe filter opts);
        match err with
        | Some e => mret (Some e)
        | None => mret None
        end
    end.

Definition mainAction (env : Env) (extapp : App) (ctx : Context)
  : M (option Error) :=
  if ctx_IsSet ctx "extcap-interfaces" then listInterfaces extapp
  else if ctx_IsSet ctx "extcap-dlts" then listDLTs extapp ctx
  else if ctx_IsSet ctx "extcap-config" then listConfig extapp ctx
  else if ctx_IsSet ctx "capture" then capture env extapp ctx
  else
    (* lines 268-273 *)
    (if ctx_IsSet ctx "extcap-capture-filter" then os_Exit 0 else mret tt);;
    emit EvShowAppHelp;;
    mret (ctx_ShowAppHelp ctx).

(** ** [App.Run] (lines 58-170) *)

(** Lines 86-129: the fixed protocol flags. *)
Definition staticFlags : list Flag :=
  [ StringFlag "extcap-version"
      "specify the Wireshark major and minor version" false "";
    BoolFlag "extcap-interfaces" "list the extcap interfaces" false false;
    BoolFlag "extcap-dlts" "list the DLTs" false false;
    StringFlag "extcap-interface"
      "specify the extcap interface `<iface>`" false "";
    BoolFlag "extcap-config"
      "list the additional configuration for an interface" false false;
    BoolFlag "capture" "run the capture" false false;
    StringFlag "extcap-capture-filter" "the capture filter `<filter>`" false "";
    StringFlag "fifo" "dump data to file or `<fifo>`" false "" ].

(** Lines 134-160: the type switch on one option.  The nil interface
    value has no dynamic type and falls to [default], where [%T] prints
    it as [<nil>]. *)
Definition addFlag (flags : list Flag) (p : loc) : M (list Flag) :=
  opt ← dynamic p;
  match opt with
  | Some (ConfigStringOpt _ d as opt) =>
      mret (flags ++ [StringFlag (call opt) (display opt) (isRequired opt) d])%list
  | Some (ConfigBoolOpt _ d as opt) =>
      mret (flags ++ [BoolFlag (call opt) (display opt) (isRequired opt) d])%list
  | Some (ConfigIntegerOpt _ d as opt) =>
      mret (flags ++ [IntFlag (call opt) (display opt) (isRequired opt) d])%list
  | Some (ConfigOtherOpt typeName _) =>
      panic (PanicString ("Unknown config option type: " ++ typeName))
  | None => panic (PanicString "Unknown config option type: <nil>")
  end.

(** [for _, opt := range opts] threading the flag slice. *)
Fixpoint addFlags (flags : list Flag) (opts : list loc) : M (list Flag) :=
  match opts with
  | [] => mret flags
  | p :: rest => flags' ← addFlag flags p; addFlags flags' rest
  end.

(** Lines 75-82: one line per usage example, each prefixed by the
    application name, with a newline between lines. *)
Fixpoint usageText (name : string) (examples : list string) : string :=
  match examples with
  | [] => ""
  | [str] => name ++ " " ++ str
  | str :: rest => name ++ " " ++ str ++ "
" ++ usageText name rest
  end.

Definition Run (env : Env) (extapp : App) (arguments : list string)
  : M unit :=
  (* lines 63-68 *)
  let info := if Info (Version extapp) =? "" then "0.0.1"
              else Info (Version extapp) in
  let help := if Help (Version extapp) =? ""
              then "https://github.com/lion7/extcap"
              else Help (Version extapp) in
  (* line 74 *)
  let examples := "--extcap-interfaces" :: UsageExamples extapp in
  let extapp :=
    {| Usage := Usage extapp; HelpPage := HelpPage extapp;
       Version := {| Info := info; Help := help |};
       UsageExamples := examples;
       GetInterfaces := GetInterfaces extapp; GetDLT := GetDLT extapp;
       GetConfigOptions := GetConfigOptions extapp;
       GetAllConfigOptions := GetAllConfigOptions extapp;
       StartCapture := StartCapture extapp; OpenPipe := OpenPipe extapp |} in
  (* lines 131-162 *)
  flags ← match GetAllConfigOptions extapp with
          | None => mret staticFlags
          | Some getAll =>
              emit EvGetAllConfigOptions;;
              addFlags staticFlags (getAll ())
          end;
  (* lines 164-169 *)
  let app :=
    {| cli_Usage := Usage extapp; cli_Description := HelpPage extapp;
       cli_UsageText := usageText (cli_Name env) examples;
       cli_Flags := flags; cli_Action := mainAction env extapp |} in
  err ← cli_Run env app arguments;
  match err with
  | Some e => emit (EvStderr e);; os_Exit (-1)
  | None => mret tt
  end.

(** ** The modes as the specification lists them *)

Inductive Mode : Type :=
| ListInterfaces
| ListDLTs
| ListConfig
| Capture
| CaptureFilterValidation
| Help_.

#[global] Instance Mode_eq_dec : EqDecision Mode.
Proof. solve_decision. Defined.

(** The mode flags in the priority order of the specification, each with
    the mode it selects. *)
Definition modeFlags : list (string * Mode) :=
  [ ("extcap-interfaces", ListInterfaces);
    ("extcap-dlts", ListDLTs);
    ("extcap-config", ListConfig);
    ("capture", Capture);
    ("extcap-capture-filter", CaptureFilterValidation) ].

(** The first flag of the list found set selects the mode; when none is
    set the mode is help.  [isSet] is all the selection looks at. *)
Definition selectModeBy (isSet : string → bool) : Mode :=
  match find (λ fm, isSet fm.1) modeFlags with
  | Some fm => fm.2
  | None => Help_
  end.

Definition selectMode (ctx : Context) : Mode := selectModeBy (ctx_IsSet ctx).

(** What running one mode means. *)
Definition runMode (env : Env) (extapp : App) (ctx : Context) (m : Mode)
  : M (option Error) :=
  match m with
  | ListInterfaces => listInterfaces extapp
  | ListDLTs => listDLTs extapp ctx
  | ListConfig => listConfig extapp ctx
  | Capture => capture env extapp ctx
  | CaptureFilterValidation => os_Exit 0
  | Help_ => emit EvShowAppHelp;; mret (ctx_ShowAppHelp ctx)
  end.

(** The mode an observable action belongs to; the two actions of
    [App.Run] itself belong to none. *)
Definition eventMode (e : Event) : option Mode :=
  match e with
  | EvGetInterfaces | EvPrintln (PVersion _) | EvPrintln (PInterface _) =>
      Some ListInterfaces
  | EvGetDLT _ | EvPrintln (PDLT _) => Some ListDLTs
  | EvGetConfigOptions _ | EvPrintln (POption _) => Some ListConfig
  | EvOpenPipe _ | EvOsOpenFile _ | EvStartCapture _ _ _ _ => Some Capture
  | EvShowAppHelp => Some Help_
  | EvGetAllConfigOptions | EvStderr _ => None
  end.

(** ** Contexts for examples *)

(** A context made from the flags given on a command line: a flag is set
    when it is listed, [FlagNames] are the listed names, and an unlisted
    flag has its default. *)
Definition lookupFlag (set : list (string * Value)) (name : string)
  : option Value :=
  snd <$> find (λ kv, kv.1 =? name) set.

Definition contextOf (set : list (string * Value))
    (defaults : string → Value) : Context :=
  {| ctx_IsSet := λ name, bool_decide (is_Some (lookupFlag set name));
     ctx_String := λ name,
       match default (defaults name) (lookupFlag set name) with
       | VString s => s
       | _ => ""
       end;
     ctx_Value := λ name, default (defaults name) (lookupFlag set name);
     ctx_FlagNames := set.*1;
     ctx_ShowAppHelp := None |}.

(** ** Vocabulary of the properties *)

(** The pipe opener [capture] uses, seen as the action it shows and the
    function that opens the pipe: the caller's [OpenPipe] when set,
    [os.OpenFile] under [openPipe] otherwise. *)
Definition openerEvent (extapp : App) (name : string) : Event :=
  match OpenPipe extapp with
  | Some _ => EvOpenPipe name
  | None => EvOsOpenFile name
  end.

Definition rawOpener (env : Env) (extapp : App) (name : string)
  : WriteCloser * option Error :=
  match OpenPipe extapp with
  | Some f => f name
  | None => os_OpenFile env name
  end.

(** The error [capture] returns when the opener reports [e]: [openPipe]
    wraps what [os.OpenFile] reports, a caller's opener is taken as is. *)
Definition openError (extapp : App) (e : Error) : Error :=
  match OpenPipe extapp with
  | Some _ => e
  | None => Errorf "unable to open pipe" e
  end.

(** Two objects that differ at most in the stored ordinal. *)
Definition same_option (o o' : ConfigOption) : Prop :=
  setNumber 0 o = setNumber 0 o'.

(** The three names [capture] keeps out of the options map. *)
Definition excludedFromOpts : list string :=
  ["extcap-interface"; "fifo"; "extcap-capture-filter"].

(** The dynamic type [App.Run]'s switch has no case for, as [%T] prints
    it; [None] for the three supported variants. *)
Definition unknownType (o : option ConfigOption) : option string :=
  match o with
  | None => Some "<nil>"
  | Some (ConfigOtherOpt typeName _) => Some typeName
  | Some _ => None
  end.

Definition unknownTypePanic (t : string) : PanicValue :=
  PanicString ("Unknown config option type: " ++ t).

(** What went to standard output. *)
Definition printed {A} (r : Res A) : list Printable :=
  omap (λ e, match e with EvPrintln p => Some p | _ => None end) (events r).

(** ** Example inputs *)

Definition noDefaults : string → Value := λ _, VNil.

(** An environment whose flag library hands [ctx] to the action, and in
    which only [/tmp/p] can be opened. *)
Definition demoEnv (ctx : Context) : Env :=
  {| cli_Name := "demo";
     os_OpenFile := λ name,
       if name =? "/tmp/p" then (Sink 3, None)
       else (nilWriteCloser, Some (CallerError "no such file or directory"));
     cli_Run := λ app _, cli_Action app ctx |}.

Definition eth0 : CaptureInterface :=
  {| iface_value := "eth0"; iface_display := "Ethernet" |}.

Definition hostOpt : ConfigOption :=
  ConfigStringOpt {| opt_number := 7; opt_call := "host";
                     opt_display := "Remote host"; opt_required := true |}
                  "localhost".

Definition portOpt : ConfigOption :=
  ConfigIntegerOpt {| opt_number := 0; opt_call := "port";
                      opt_display := "Port"; opt_required := false |} 22.

Definition selectorOpt : ConfigOption :=
  ConfigOtherOpt "*extcap.SelectorConfig"
                 {| opt_number := 0; opt_call := "mode";
                    opt_display := "Mode"; opt_required := false |}.

Definition demoHeap : Heap :=
  <[1%positive := hostOpt]> (<[2%positive := portOpt]>
  (<[3%positive := selectorOpt]> ∅)).

(** Every callback set; the per-interface options repeat a pointer. *)
Definition demoApp : App :=
  {| Usage := "demo capture"; HelpPage := "";
     Version := {| Info := "1.0"; Help := "https://example.org" |};
     UsageExamples := [];
     GetInterfaces := Some (λ _, ([eth0], None));
     GetDLT := Some (λ _, ({| dlt_number := 1; dlt_name := "EN10MB";
                              dlt_display := "Ethernet" |}, None));
     GetConfigOptions := Some (λ _, ([1; 2; 1]%positive, None));
     GetAllConfigOptions := None;
     StartCapture := Some (λ _ _ _ _, None);
     OpenPipe := None |}.

(** Nothing set but what the field documentation calls optional. *)
Definition bareApp : App :=
  {| Usage := ""; HelpPage := ""; Version := {| Info := ""; Help := "" |};
     UsageExamples := [];
     GetInterfaces := None; GetDLT := None; GetConfigOptions := None;
     GetAllConfigOptions := None; StartCapture := None; OpenPipe := None |}.

(** [bareApp] with a pipe opener of the caller's that fails. *)
Definition failingOpenerApp : App :=
  {| Usage := ""; HelpPage := ""; Version := {| Info := ""; Help := "" |};
     UsageExamples := [];
     GetInterfaces := None; GetDLT := None; GetConfigOptions := None;
     GetAllConfigOptions := None; StartCapture := None;
     OpenPipe := Some (λ _, (nilWriteCloser, Some (CallerError "refused"))) |}.

(** [demoApp] declaring a selector among its global options. *)
Definition selectorApp : App :=
  {| Usage := ""; HelpPage := ""; Version := {| Info := ""; Help := "" |};
     UsageExamples := [];
     GetInterfaces := GetInterfaces demoApp; GetDLT := GetDLT demoApp;
     GetConfigOptions := None;
     GetAllConfigOptions := Some (λ _, [1; 3; 2]%positive);
     StartCapture := StartCapture demoApp; OpenPipe := None |}.

Definition interfacesCtx : Context :=
  contextOf [("extcap-interfaces", VBool true)] noDefaults.

Definition dltsCtx : Context :=
  contextOf [("extcap-dlts", VBool true); ("extcap-config", VBool true);
             ("extcap-interface", VString "eth0")] noDefaults.

(** The same flags set as in [dltsCtx], with other values. *)
Definition dltsCtx' : Context :=
  contextOf [("extcap-config", VBool false); ("extcap-dlts", VBool false);
             ("extcap-interface", VString "wlan0");
             ("fifo", VString "/tmp/p")] noDefaults.

Definition dltsNoInterfaceCtx : Context :=
  contextOf [("extcap-dlts", VBool true)] noDefaults.

Definition configCtx : Context :=
  contextOf [("extcap-config", VBool true);
             ("extcap-interface", VString "eth0")] noDefaults.

Definition configNoInterfaceCtx : Context :=
  contextOf [("extcap-config", VBool true)] noDefaults.

(** [--capture --extcap-interface=eth0 --fifo=/tmp/p
    --extcap-capture-filter=tcp --verbose=true] *)
Definition captureCtx : Context :=
  contextOf [("capture", VBool true); ("extcap-interface", VString "eth0");
             ("fifo", VString "/tmp/p");
             ("extcap-capture-filter", VString "tcp");
             ("verbose", VBool true)] noDefaults.

Definition captureNoFifoCtx : Context :=
  contextOf [("capture", VBool true);
             ("extcap-interface", VString "eth0")] noDefaults.

Definition captureBadFifoCtx : Context :=
  contextOf [("capture", VBool true); ("extcap-interface", VString "eth0");
             ("fifo", VString "/no/such/fifo")] noDefaults.

(** ** Three statements the code does not satisfy as they stand *)

Definition modesRequiringInterface : list Mode := [ListDLTs; ListConfig; Capture].

(** Every mode that requires an interface reports its absence. *)
Definition missing_interface_reported_in_every_mode : Prop :=
  ∀ env extapp ctx (h : Heap),
    selectMode ctx ∈ modesRequiringInterface →
    ctx_IsSet ctx "extcap-interface" = false →
    mainAction env extapp ctx h = mkRes [] h (Ret (Some ErrNoInterfaceSpecified)).

(** Whichever opener is in use, its error comes back wrapped. *)
Definition pipe_error_wrapped_for_every_opener : Prop :=
  ∀ env extapp ctx (h : Heap) pipe e,
    selectMode ctx = Capture →
    ctx_IsSet ctx "extcap-interface" = true →
    ctx_IsSet ctx "fifo" = true →
    rawOpener env extapp (ctx_String ctx "fifo") = (pipe, Some e) →
    mainAction env extapp ctx h =
      mkRes [openerEvent extapp (ctx_String ctx "fifo")] h
            (Ret (Some (Errorf "unable to open pipe" e))).

(** With the flags of its mode set, an unset required callback always
    ends in a panic. *)
Definition unset_callback_panics_in_every_mode : Prop :=
  ∀ env extapp ctx (h : Heap),
    (selectMode ctx = ListInterfaces →
     GetInterfaces extapp = None →
     outcome (mainAction env extapp ctx h) = Panicked NilDereference)
    ∧ (selectMode ctx = ListDLTs →
       ctx_IsSet ctx "extcap-interface" = true →
       GetDLT extapp = None →
       outcome (mainAction env extapp ctx h) = Panicked NilDereference)
    ∧ (selectMode ctx = Capture →
       ctx_IsSet ctx "extcap-interface" = true →
       ctx_IsSet ctx "fifo" = true →
       StartCapture extapp = None →
       outcome (mainAction env extapp ctx h) = Panicked NilDereference).

(** ** Vocabulary of the further properties *)

(** The fields of a flag declaration. *)
Definition flagName (f : Flag) : string :=
  match f with
  | StringFlag n _ _ _ | BoolFlag n _ _ _ | IntFlag n _ _ _ => n
  end.

Definition flagUsage (f : Flag) : string :=
  match f with
  | StringFlag _ u _ _ | BoolFlag _ u _ _ | IntFlag _ u _ _ => u
  end.

Definition flagRequired (f : Flag) : bool :=
  match f with
  | StringFlag _ _ r _ | BoolFlag _ _ r _ | IntFlag _ _ r _ => r
  end.

Definition flagDefault (f : Flag) : Value :=
  match f with
  | StringFlag _ _ _ v => VString v
  | BoolFlag _ _ _ v => VBool v
  | IntFlag _ _ _ v => VInt v
  end.

(** The default a supported option variant carries, as a flag value. *)
Definition optDefault (o : ConfigOption) : Value :=
  match o with
  | ConfigStringOpt _ d => VString d
  | ConfigBoolOpt _ d => VBool d
  | ConfigIntegerOpt _ d => VInt d
  | ConfigOtherOpt _ _ => VNil
  end.

(** A flag that declares an option: same name, description, required
    flag and default, the default's type being the flag's type. *)
Definition declares (o : ConfigOption) (f : Flag) : Prop :=
  flagName f = call o ∧ flagUsage f = display o
  ∧ flagRequired f = isRequired o ∧ flagDefault f = optDefault o.

(** The receiver as [App.Run] has it when it binds [mainAction] (after
    lines 63-74): blank version fields filled in, the built-in usage
    example in front. *)
Definition configured (extapp : App) : App :=
  {| Usage := Usage extapp; HelpPage := HelpPage extapp;
     Version :=
       {| Info := if Info (Version extapp) =? "" then "0.0.1"
                  else Info (Version extapp);
          Help := if Help (Version extapp) =? ""
                  then "https://github.com/lion7/extcap"
                  else Help (Version extapp) |};
     UsageExamples := "--extcap-interfaces" :: UsageExamples extapp;
     GetInterfaces := GetInterfaces extapp; GetDLT := GetDLT extapp;
     GetConfigOptions := GetConfigOptions extapp;
     GetAllConfigOptions := GetAllConfigOptions extapp;
     StartCapture := StartCapture extapp; OpenPipe := OpenPipe extapp |}.

(** The action of [GetAllConfigOptions], when it is set. *)
Definition schemaEvents (extapp : App) : list Event :=
  match GetAllConfigOptions extapp with
  | Some _ => [EvGetAllConfigOptions]
  | None => []
  end.

(** The flag library of an environment parses [arguments] into [ctx] and
    runs the action on it. *)
Definition dispatches (env : Env) (arguments : list string) (ctx : Context)
  : Prop :=
  ∀ app, cli_Run env app arguments = cli_Action app ctx.

(** The options [App.Run] asks the caller for: none when
    [GetAllConfigOptions] is nil. *)
Definition globalOptions (extapp : App) : list loc :=
  match GetAllConfigOptions extapp with
  | Some getAll => getAll ()
  | None => []
  end.

(** The [cli.App] that [App.Run] hands to the flag library, given the
    flags it has built (lines 70-84 and 164). *)
Definition builtApp (env : Env) (extapp : App) (flags : list Flag) : CliApp :=
  {| cli_Usage := Usage extapp; cli_Description := HelpPage extapp;
     cli_UsageText :=
       usageText (cli_Name env) ("--extcap-interfaces" :: UsageExamples extapp);
     cli_Flags := flags;
     cli_Action := mainAction env (configured extapp) |}.

(** What [App.Run] makes of the library's run [r], [pre] being what
    happened before (lines 166-169): an error is written to standard
    error and the process exits with status -1. *)
Definition reported (pre : list Event) (r : Res (option Error)) : Res unit :=
  match outcome r with
  | Ret None => mkRes (pre ++ events r) (heap_after r) (Ret tt)
  | Ret (Some e) =>
      mkRes (pre ++ events r ++ [EvStderr e]) (heap_after r) (Exited (-1))
  | Panicked v => mkRes (pre ++ events r) (heap_after r) (Panicked v)
  | Exited c => mkRes (pre ++ events r) (heap_after r) (Exited c)
  end.

(** ** Further example inputs *)

(** Callbacks that fail. *)
Definition failingCallbacksApp : App :=
  {| Usage := ""; HelpPage := ""; Version := {| Info := ""; Help := "" |};
     UsageExamples := [];
     GetInterfaces := Some (λ _, ([], Some (CallerError "no devices")));
     GetDLT := Some (λ _, ({| dlt_number := 0; dlt_name := "";
                              dlt_display := "" |},
                           Some (CallerError "unknown interface")));
     GetConfigOptions :=
       Some (λ _, ([1; 2]%positive, Some (CallerError "unknown interface")));
     GetAllConfigOptions := None;
     StartCapture := Some (λ _ _ _ _, Some (CallerError "capture failed"));
     OpenPipe := None |}.

(** Per-interface options with a nil entry in second place. *)
Definition nilOptionApp : App :=
  {| Usage := ""; HelpPage := ""; Version := {| Info := ""; Help := "" |};
     UsageExamples := [];
     GetInterfaces := None; GetDLT := None;
     GetConfigOptions := Some (λ _, ([1; 9; 2]%positive, None));
     GetAllConfigOptions := None; StartCapture := None; OpenPipe := None |}.

(** Global options, all of supported variants. *)
Definition globalOptionsApp : App :=
  {| Usage := ""; HelpPage := ""; Version := {| Info := ""; Help := "" |};
     UsageExamples := [];
     GetInterfaces := Some (λ _, ([eth0], None)); GetDLT := None;
     GetConfigOptions := None;
     GetAllConfigOptions := Some (λ _, [2; 1]%positive);
     StartCapture := None; OpenPipe := None |}.

Definition filterCtx : Context :=
  contextOf [("extcap-capture-filter", VString "tcp");
             ("extcap-interface", VString "eth0")] noDefaults.

(** [captureCtx] with the flags listed in another order, one of them
    twice. *)
Definition captureCtx' : Context :=
  contextOf [("verbose", VBool true); ("fifo", VString "/tmp/p");
             ("capture", VBool true); ("extcap-interface", VString "eth0");
             ("extcap-capture-filter", VString "tcp");
             ("verbose", VBool true)] noDefaults.

(** * Properties *)

(** ** Running the monad *)

Ltac exec :=
  cbv [mbind M_bind mret M_ret emit panic os_Exit invoke fmt_Println
       load store dynamic];
  cbn [events heap_after outcome app].

Lemma bind_run {A B} (m : M A) (f : A → M B) (h : Heap) :
  (m ≫= f) h =
  match outcome (m h) with
  | Ret a =>
      mkRes (events (m h) ++ events (f a (heap_after (m h))))
            (heap_after (f a (heap_after (m h))))
            (outcome (f a (heap_after (m h))))
  | Panicked v => mkRes (events (m h)) (heap_after (m h)) (Panicked v)
  | Exited c => mkRes (events (m h)) (heap_after (m h)) (Exited c)
  end.
Proof. reflexivity. Qed.

(** ** Selecting the mode *)

Ltac case_flags :=
  repeat match goal with
         | |- context [if ?b then _ else _] => destruct b eqn:?
         end.

Lemma selectMode_cascade ctx :
  selectMode ctx =
    if ctx_IsSet ctx "extcap-interfaces" then ListInterfaces
    else if ctx_IsSet ctx "extcap-dlts" then ListDLTs
    else if ctx_IsSet ctx "extcap-config" then ListConfig
    else if ctx_IsSet ctx "capture" then Capture
    else if ctx_IsSet ctx "extcap-capture-filter" then CaptureFilterValidation
    else Help_.
Proof.
  unfold selectMode, selectModeBy, modeFlags. cbn [find fst snd].
  case_flags; reflexivity.
Qed.

Lemma selectMode_ListInterfaces ctx :
  selectMode ctx = ListInterfaces ↔ ctx_IsSet ctx "extcap-interfaces" = true.
Proof. rewrite selectMode_cascade. case_flags; intuition congruence. Qed.

Lemma selectMode_ListDLTs ctx :
  selectMode ctx = ListDLTs ↔
  ctx_IsSet ctx "extcap-interfaces" = false ∧
  ctx_IsSet ctx "extcap-dlts" = true.
Proof.
  rewrite selectMode_cascade.
  case_flags; intuition congruence.
Qed.

Lemma selectMode_ListConfig ctx :
  selectMode ctx = ListConfig ↔
  ctx_IsSet ctx "extcap-interfaces" = false ∧
  ctx_IsSet ctx "extcap-dlts" = false ∧
  ctx_IsSet ctx "extcap-config" = true.
Proof.
  rewrite selectMode_cascade.
  case_flags; intuition congruence.
Qed.

Lemma selectMode_Capture ctx :
  selectMode ctx = Capture ↔
  ctx_IsSet ctx "extcap-interfaces" = false ∧
  ctx_IsSet ctx "extcap-dlts" = false ∧
  ctx_IsSet ctx "extcap-config" = false ∧
  ctx_IsSet ctx "capture" = true.
Proof.
  rewrite selectMode_cascade.
  case_flags; intuition congruence.
Qed.

(** [mainAction] runs the body of the selected mode, and that body only. *)
Lemma mainAction_runMode env extapp ctx :
  mainAction env extapp ctx = runMode env extapp ctx (selectMode ctx).
Proof.
  rewrite selectMode_cascade. unfold mainAction.
  case_flags; reflexivity.
Qed.

(** ** What each mode body does *)

Lemma for_each_emit {A} (xs : list A) (ev : A → Event) (h : Heap) :
  for_each xs (λ x h', mkRes [ev x] h' (Ret tt)) h =
  mkRes (ev <$> xs) h (Ret tt).
Proof.
  induction xs as [|x xs IH]; [reflexivity|].
  cbn [for_each]. rewrite bind_run. cbn [events heap_after outcome].
  by rewrite IH.
Qed.

Lemma listInterfaces_run extapp (h : Heap) :
  listInterfaces extapp h =
  match GetInterfaces extapp with
  | None => mkRes [] h (Panicked NilDereference)
  | Some f =>
      match (f ()).2 with
      | Some e => mkRes [EvGetInterfaces] h (Ret (Some e))
      | None =>
          mkRes (EvGetInterfaces :: EvPrintln (PVersion (Version extapp))
                   :: ((λ i, EvPrintln (PInterface i)) <$> (f ()).1))
                h (Ret None)
      end
  end.
Proof.
  unfold listInterfaces. destruct (GetInterfaces extapp) as [f|]; [|reflexivity].
  exec. destruct (f ()) as [ifaces [e|]]; [reflexivity|].
  cbn [fst snd]. rewrite for_each_emit. cbn. by rewrite app_nil_r.
Qed.

Lemma listDLTs_run extapp ctx (h : Heap) :
  listDLTs extapp ctx h =
  if ctx_IsSet ctx "extcap-interface" then
    let iface := ctx_String ctx "extcap-interface" in
    match GetDLT extapp with
    | None => mkRes [] h (Panicked NilDereference)
    | Some f =>
        match (f iface).2 with
        | Some e => mkRes [EvGetDLT iface] h (Ret (Some e))
        | None => mkRes [EvGetDLT iface; EvPrintln (PDLT (f iface).1)] h (Ret None)
        end
    end
  else mkRes [] h (Ret (Some ErrNoInterfaceSpecified)).
Proof.
  unfold listDLTs. destruct (ctx_IsSet ctx "extcap-interface"); [|reflexivity].
  cbn [negb]. destruct (GetDLT extapp) as [f|]; [|reflexivity].
  exec. by destruct (f _) as [dlt [e|]].
Qed.

Lemma capture_run env extapp ctx (h : Heap) :
  capture env extapp ctx h =
  if ctx_IsSet ctx "extcap-interface" then
    if ctx_IsSet ctx "fifo" then
      let iface := ctx_String ctx "extcap-interface" in
      let fifo := ctx_String ctx "fifo" in
      let filter := ctx_String ctx "extcap-capture-filter" in
      let opts := collectOpts ctx in
      match rawOpener env extapp fifo with
      | (_, Some e) =>
          mkRes [openerEvent extapp fifo] h (Ret (Some (openError extapp e)))
      | (pipe, None) =>
          match StartCapture extapp with
          | None => mkRes [openerEvent extapp fifo] h (Panicked NilDereference)
          | Some start =>
              mkRes [openerEvent extapp fifo;
                     EvStartCapture iface pipe filter opts]
                    h (Ret (start iface pipe filter opts))
          end
      end
    else mkRes [] h (Ret (Some ErrNoPipeProvided))
  else mkRes [] h (Ret (Some ErrNoInterfaceSpecified)).
Proof.
  unfold capture, rawOpener, openError, openerEvent, openPipe.
  destruct (ctx_IsSet ctx "extcap-interface"); [|reflexivity].
  destruct (ctx_IsSet ctx "fifo"); [|reflexivity].
  cbn [negb]. destruct (OpenPipe extapp) as [f|].
  - exec. destruct (f _) as [pipe [e|]]; [reflexivity|].
    destruct (StartCapture extapp) as [start|]; [|reflexivity].
    exec. by destruct (start _ _ _ _).
  - exec. destruct (os_OpenFile env _) as [pipe [e|]]; [reflexivity|].
    exec. destruct (StartCapture extapp) as [start|]; [|reflexivity].
    exec. by destruct (start _ _ _ _).
Qed.

Lemma setNumber_setNumber (n m : Z) (o : ConfigOption) :
  setNumber n (setNumber m o) = setNumber n o.
Proof. by destruct o. Qed.

Lemma number_setNumber (n : Z) (o : ConfigOption) : number (setNumber n o) = n.
Proof. by destruct o. Qed.

Lemma numberAndPrint_run (i : Z) (p : loc) (h : Heap) :
  numberAndPrint i p h =
  match h !! p with
  | None => mkRes [] h (Panicked NilDereference)
  | Some o =>
      mkRes [EvPrintln (POption (setNumber i o))] (<[p := setNumber i o]> h)
            (Ret tt)
  end.
Proof.
  unfold numberAndPrint. exec. destruct (h !! p) as [o|]; [|reflexivity].
  cbn. by rewrite lookup_insert_eq.
Qed.

Lemma same_option_setNumber (n : Z) (o o' : ConfigOption) :
  same_option o o' → setNumber n o = setNumber n o'.
Proof.
  unfold same_option. intros E.
  by rewrite <-(setNumber_setNumber n 0 o), E, setNumber_setNumber.
Qed.

(** The loop over the returned pointers: whatever ordinals the objects
    carried before, and whether or not pointers repeat, the [k]-th line
    printed is the [k]-th object with ordinal [i + k]. *)
Lemma for_range_from_numberAndPrint (opts : list loc) :
  ∀ (objs : list ConfigOption) (i : Z) (h : Heap),
    Forall2 (λ p o, ∃ o', h !! p = Some o' ∧ same_option o' o) opts objs →
    events (for_range_from i opts numberAndPrint h) =
      imap (λ k o, EvPrintln (POption (setNumber (i + Z.of_nat k) o))) objs
    ∧ outcome (for_range_from i opts numberAndPrint h) = Ret tt.
Proof.
  induction opts as [|p opts IH]; intros objs i h Hobjs.
  { by apply Forall2_nil_inv_l in Hobjs as ->. }
  apply Forall2_cons_inv_l in Hobjs as (o & objs' & (o' & Hp & Ho) & Hrest & ->).
  cbn [for_range_from]. rewrite bind_run, numberAndPrint_run, Hp.
  cbn [events heap_after outcome].
  destruct (IH objs' (i + 1) (<[p := setNumber i o']> h)) as [Hev Hout].
  { eapply Forall2_impl; [exact Hrest|].
    intros q oq (oq' & Hq & Hoq). destruct (decide (p = q)) as [->|Hne].
    - rewrite lookup_insert_eq. eexists; split; [done|].
      rewrite Hp in Hq. injection Hq as <-.
      unfold same_option in *. by rewrite setNumber_setNumber.
    - rewrite lookup_insert_ne by done. eauto. }
  rewrite Hev, Hout. split; [|done].
  cbn [imap app]. f_equal.
  - by rewrite Z.add_0_r, (same_option_setNumber i o' o).
  - apply imap_ext. intros k x _. cbn. do 3 f_equal. lia.
Qed.

Lemma for_range_from_eventMode (opts : list loc) :
  ∀ (i : Z) (h : Heap),
    Forall (λ e, eventMode e = Some ListConfig)
           (events (for_range_from i opts numberAndPrint h)).
Proof.
  induction opts as [|p opts IH]; intros i h; [by constructor|].
  cbn [for_range_from]. rewrite bind_run, numberAndPrint_run.
  destruct (h !! p) as [o|]; cbn [events heap_after outcome]; [|by constructor].
  specialize (IH (i + 1) (<[p := setNumber i o]> h)).
  destruct (outcome (for_range_from (i + 1) opts numberAndPrint
                                    (<[p := setNumber i o]> h)));
    cbn [events app]; by constructor.
Qed.

Lemma listConfig_run extapp ctx (h : Heap) :
  listConfig extapp ctx h =
  match GetConfigOptions extapp with
  | None => mkRes [] h (Ret None)
  | Some f =>
      if ctx_IsSet ctx "extcap-interface" then
        let iface := ctx_String ctx "extcap-interface" in
        match (f iface).2 with
        | Some e => mkRes [EvGetConfigOptions iface] h (Ret (Some e))
        | None =>
            let r := for_range (f iface).1 numberAndPrint h in
            mkRes (EvGetConfigOptions iface :: events r) (heap_after r)
                  match outcome r with
                  | Ret _ => Ret None
                  | Panicked v => Panicked v
                  | Exited c => Exited c
                  end
        end
      else mkRes [] h (Ret (Some ErrNoInterfaceSpecified))
  end.
Proof.
  unfold listConfig. destruct (GetConfigOptions extapp) as [f|]; [|reflexivity].
  destruct (ctx_IsSet ctx "extcap-interface"); [|reflexivity].
  cbn [negb]. rewrite bind_run. cbn [emit events heap_after outcome].
  destruct (f _) as [opts [e|]]; [reflexivity|]. cbn [fst snd].
  rewrite bind_run.
  destruct (outcome (for_range opts numberAndPrint h)); cbn; [|done..].
  by rewrite app_nil_r.
Qed.

(** ** The options map *)

Lemma excluded_spec (name : string) :
  (name =? "extcap-interface") || (name =? "fifo")
  || (name =? "extcap-capture-filter") = true
  ↔ name ∈ excludedFromOpts.
Proof.
  unfold excludedFromOpts.
  rewrite !orb_true_iff, !String.eqb_eq, !elem_of_cons, elem_of_nil.
  tauto.
Qed.

Lemma collectOpts_lookup (ctx : Context) (name : string) :
  collectOpts ctx !! name =
  if bool_decide (name ∈ ctx_FlagNames ctx ∧ name ∉ excludedFromOpts)
  then Some (ctx_Value ctx name) else None.
Proof.
  unfold collectOpts.
  enough (∀ names (acc : gmap string Value),
    foldl (λ opts n,
             if (n =? "extcap-interface") || (n =? "fifo")
                || (n =? "extcap-capture-filter")
             then opts else <[n := ctx_Value ctx n]> opts) acc names !! name =
    if bool_decide (name ∈ names ∧ name ∉ excludedFromOpts)
    then Some (ctx_Value ctx name) else acc !! name) as Hgen.
  { by rewrite Hgen, lookup_empty. }
  induction names as [|n names IH]; intros acc.
  { cbn. rewrite bool_decide_eq_false_2; [done|]. by intros [?%elem_of_nil _]. }
  cbn [foldl]. rewrite IH. clear IH.
  destruct (decide (name ∈ names ∧ name ∉ excludedFromOpts)) as [[Hin Hex]|Hno].
  { rewrite !bool_decide_eq_true_2; [done|split; [by right|done]|done]. }
  rewrite (bool_decide_eq_false_2 _ Hno).
  destruct ((n =? "extcap-interface") || (n =? "fifo")
            || (n =? "extcap-capture-filter")) eqn:Hn.
  - apply excluded_spec in Hn.
    rewrite bool_decide_eq_false_2; [done|].
    intros [[->|Hin]%elem_of_cons Hex]; [done|]. by apply Hno.
  - assert (n ∉ excludedFromOpts) as Hn'.
    { intros Hx%excluded_spec. congruence. }
    destruct (decide (n = name)) as [->|Hne].
    + rewrite lookup_insert_eq, bool_decide_eq_true_2; [done|].
      split; [by left|done].
    + rewrite lookup_insert_ne by done.
      rewrite bool_decide_eq_false_2; [done|].
      intros [[->|Hin]%elem_of_cons Hex]; [done|]. by apply Hno.
Qed.

(** ** Building the flag schema *)

Lemma unknownType_None (o : option ConfigOption) :
  unknownType o = None ↔
  ∃ c, (∃ d, o = Some (ConfigStringOpt c d))
       ∨ (∃ d, o = Some (ConfigBoolOpt c d))
       ∨ (∃ d, o = Some (ConfigIntegerOpt c d)).
Proof.
  split.
  - destruct o as [[c d|c d|c d|t c]|]; cbn; intros; simplify_eq;
      exists c; eauto.
  - by intros (c & [[d ->]|[[d ->]|[d ->]]]).
Qed.

Lemma addFlag_unknown (flags : list Flag) (p : loc) (h : Heap) (t : string) :
  unknownType (h !! p) = Some t →
  addFlag flags p h = mkRes [] h (Panicked (unknownTypePanic t)).
Proof.
  unfold addFlag, unknownTypePanic. exec.
  destruct (h !! p) as [[]|]; cbn; intros; by simplify_eq.
Qed.

Lemma addFlag_known (flags : list Flag) (p : loc) (h : Heap) :
  unknownType (h !! p) = None →
  ∃ flag, addFlag flags p h = mkRes [] h (Ret (flags ++ [flag])%list).
Proof.
  unfold addFlag. exec.
  destruct (h !! p) as [[]|]; cbn; intros; simplify_eq; eauto.
Qed.

(** One option without a case in the switch is enough for the loop to
    panic, having done nothing else. *)
Lemma addFlags_unknown (opts : list loc) :
  ∀ (flags : list Flag) (h : Heap) (p : loc),
    p ∈ opts → is_Some (unknownType (h !! p)) →
    ∃ t, addFlags flags opts h = mkRes [] h (Panicked (unknownTypePanic t)).
Proof.
  induction opts as [|q opts IH]; intros flags h p Hin Hp.
  { by apply elem_of_nil in Hin. }
  cbn [addFlags]. rewrite bind_run.
  destruct (unknownType (h !! q)) as [t|] eqn:Hq.
  { exists t. by rewrite (addFlag_unknown _ _ _ _ Hq). }
  destruct (addFlag_known flags q h Hq) as [flag ->].
  cbn [events heap_after outcome app].
  apply elem_of_cons in Hin as [->|Hin].
  { rewrite Hq in Hp. by destruct Hp. }
  destruct (IH (flags ++ [flag])%list h p Hin Hp) as [t ->]. by exists t.
Qed.

Lemma addFlags_known (opts : list loc) :
  ∀ (flags : list Flag) (h : Heap),
    Forall (λ p, unknownType (h !! p) = None) opts →
    ∃ added, length added = length opts ∧
      addFlags flags opts h = mkRes [] h (Ret (flags ++ added)%list).
Proof.
  induction opts as [|q opts IH]; intros flags h Hall.
  { exists []. by rewrite app_nil_r. }
  apply Forall_cons in Hall as [Hq Hall].
  cbn [addFlags]. rewrite bind_run.
  destruct (addFlag_known flags q h Hq) as [flag ->].
  cbn [events heap_after outcome app].
  destruct (IH (flags ++ [flag])%list h Hall) as (added & Hlen & ->).
  exists (flag :: added). cbn. by rewrite Hlen, <-app_assoc.
Qed.

(** ** The embedding on concrete invocations *)

Example listDLTs_line :
  render <$> printed (mainAction (demoEnv dltsCtx) demoApp dltsCtx demoHeap)
  = [Some "dlt {number=1}{name=EN10MB}{display=Ethernet}"].
Proof. reflexivity. Qed.

(** The pointer returned twice is printed twice, each time with the
    ordinal of its position; the ordinal 7 it carried before is gone. *)
Example listConfig_lines :
  render <$> printed (mainAction (demoEnv configCtx) demoApp configCtx demoHeap)
  = [Some "arg {number=0}{call=--host}{display=Remote host}{type=string}{default=localhost}{required=true}";
     Some "arg {number=1}{call=--port}{display=Port}{type=integer}{default=22}{required=false}";
     Some "arg {number=2}{call=--host}{display=Remote host}{type=string}{default=localhost}{required=true}"].
Proof. reflexivity. Qed.

Example listConfig_heap :
  heap_after (mainAction (demoEnv configCtx) demoApp configCtx demoHeap)
    !! 1%positive = Some (setNumber 2 hostOpt).
Proof. reflexivity. Qed.

Example listDLTs_without_interface :
  mainAction (demoEnv dltsNoInterfaceCtx) demoApp dltsNoInterfaceCtx demoHeap
  = mkRes [] demoHeap (Ret (Some ErrNoInterfaceSpecified)).
Proof. reflexivity. Qed.

Example capture_scenario_options :
  collectOpts captureCtx = {[ "capture" := VBool true; "verbose" := VBool true ]}.
Proof. reflexivity. Qed.

Example filter_validation_exits :
  mainAction (demoEnv interfacesCtx) demoApp
    (contextOf [("extcap-capture-filter", VString "tcp")] noDefaults) demoHeap
  = mkRes [] demoHeap (Exited 0).
Proof. reflexivity. Qed.

Example help_by_default :
  mainAction (demoEnv interfacesCtx) demoApp (contextOf [] noDefaults) demoHeap
  = mkRes [EvShowAppHelp] demoHeap (Ret None).
Proof. reflexivity. Qed.

(** [Run] fills in the version before the action prints it. *)
Example Run_defaults_version :
  printed (Run (demoEnv interfacesCtx)
               {| Usage := ""; HelpPage := "";
                  Version := {| Info := ""; Help := "" |};
                  UsageExamples := [];
                  GetInterfaces := Some (λ _, ([eth0], None));
                  GetDLT := None; GetConfigOptions := None;
                  GetAllConfigOptions := None; StartCapture := None;
                  OpenPipe := None |}
               ["--extcap-interfaces"] ∅)
  = [PVersion {| Info := "0.0.1"; Help := "https://github.com/lion7/extcap" |};
     PInterface eth0].
Proof. reflexivity. Qed.

(** An error of the action is printed to standard error and the process
    exits with status -1. *)
Example Run_reports_error :
  Run (demoEnv captureNoFifoCtx) demoApp ["--capture"] demoHeap
  = mkRes [EvStderr ErrNoPipeProvided] demoHeap (Exited (-1)).
Proof. reflexivity. Qed.

Example usageText_lines :
  usageText "demo" ["--extcap-interfaces"; "--extcap-interface=demo --extcap-dlts"]
  = "demo --extcap-interfaces
demo --extcap-interface=demo --extcap-dlts".
Proof. reflexivity. Qed.

Example Run_selector_panic :
  Run (demoEnv captureCtx) selectorApp ["--capture"] demoHeap
  = mkRes [EvGetAllConfigOptions] demoHeap
          (Panicked (PanicString
             "Unknown config option type: *extcap.SelectorConfig")).
Proof. reflexivity. Qed.

Example addFlags_supported :
  outcome (addFlags staticFlags [1; 2]%positive demoHeap)
  = Ret (staticFlags ++ [StringFlag "host" "Remote host" true "localhost";
                         IntFlag "port" "Port" false 22])%list.
Proof. reflexivity. Qed.

(** * The claims *)

(** C1. For every invocation the dispatcher runs the body of exactly the
    mode selected by the first flag found set in the order
    list-interfaces, list-DLTs, list-config, capture,
    capture-filter-validation, help: [mainAction] is the body of that
    mode, every observable action it performs belongs to that mode, and
    any context in which the same mode flags are set, whatever the flag
    values, selects the same mode. *)
Theorem mainAction_runs_the_selected_mode env extapp ctx (h : Heap) :
  mainAction env extapp ctx h = runMode env extapp ctx (selectMode ctx) h
  ∧ Forall (λ e, eventMode e = Some (selectMode ctx))
           (events (mainAction env extapp ctx h))
  ∧ selectMode ctx =
      (if ctx_IsSet ctx "extcap-interfaces" then ListInterfaces
       else if ctx_IsSet ctx "extcap-dlts" then ListDLTs
       else if ctx_IsSet ctx "extcap-config" then ListConfig
       else if ctx_IsSet ctx "capture" then Capture
       else if ctx_IsSet ctx "extcap-capture-filter"
            then CaptureFilterValidation
       else Help_)
  ∧ ∀ ctx',
      Forall (λ fm, ctx_IsSet ctx' fm.1 = ctx_IsSet ctx fm.1) modeFlags →
      selectMode ctx' = selectMode ctx.
Proof.
  split; [by rewrite mainAction_runMode|].
  split; [|split; [apply selectMode_cascade|]].
  - rewrite mainAction_runMode.
    destruct (selectMode ctx); cbn [runMode].
    + rewrite listInterfaces_run.
      destruct (GetInterfaces extapp) as [f|]; [|by constructor].
      destruct (f ()).2; cbn [events]; repeat (constructor; [done|]);
        [by constructor|].
      apply Forall_fmap, Forall_forall. done.
    + rewrite listDLTs_run.
      destruct (ctx_IsSet ctx "extcap-interface"); [|by constructor].
      cbn zeta. destruct (GetDLT extapp) as [f|]; [|by constructor].
      destruct (f _).2; cbn [events]; by repeat constructor.
    + rewrite listConfig_run.
      destruct (GetConfigOptions extapp) as [f|]; [|by constructor].
      destruct (ctx_IsSet ctx "extcap-interface"); [|by constructor].
      cbn zeta. destruct (f _).2; cbn [events]; [by repeat constructor|].
      constructor; [done|]. apply for_range_from_eventMode.
    + rewrite capture_run.
      destruct (ctx_IsSet ctx "extcap-interface"); [|by constructor].
      destruct (ctx_IsSet ctx "fifo"); [|by constructor].
      cbn zeta. unfold openerEvent.
      destruct (rawOpener env extapp _) as [pipe [e|]];
        [destruct (OpenPipe extapp); by repeat constructor|].
      destruct (StartCapture extapp);
        destruct (OpenPipe extapp); by repeat constructor.
    + by constructor.
    + by repeat constructor.
  - intros ctx' Hsame. rewrite !selectMode_cascade.
    unfold modeFlags in Hsame.
    repeat (apply Forall_cons in Hsame as [E Hsame]; cbn in E; rewrite E;
            clear E).
    done.
Qed.

Lemma mainAction_runs_the_selected_mode_witness :
  selectMode dltsCtx' = selectMode dltsCtx
  ∧ selectMode dltsCtx = ListDLTs
  ∧ ctx_String dltsCtx' "extcap-interface" ≠ ctx_String dltsCtx "extcap-interface".
Proof.
  split; [|split; [reflexivity|discriminate]].
  apply (mainAction_runs_the_selected_mode (demoEnv dltsCtx) demoApp dltsCtx ∅).
  repeat constructor.
Defined.

(** C2, as amended. In list-DLTs mode, in list-config mode when a
    per-interface option callback is registered, and in capture mode,
    an invocation without [--extcap-interface] returns
    [ErrNoInterfaceSpecified], calls no callback and prints nothing. *)
Theorem missing_interface_reported env extapp ctx (h : Heap) :
  selectMode ctx ∈ modesRequiringInterface →
  ctx_IsSet ctx "extcap-interface" = false →
  (selectMode ctx = ListConfig → is_Some (GetConfigOptions extapp)) →
  mainAction env extapp ctx h = mkRes [] h (Ret (Some ErrNoInterfaceSpecified)).
Proof.
  intros Hmode Hno Hcb. rewrite mainAction_runMode.
  unfold modesRequiringInterface in Hmode.
  repeat (apply elem_of_cons in Hmode as [Hm|Hmode]);
    [| | |by apply elem_of_nil in Hmode]; rewrite Hm; cbn [runMode].
  - by rewrite listDLTs_run, Hno.
  - rewrite listConfig_run, Hno. by destruct (Hcb Hm) as [f ->].
  - by rewrite capture_run, Hno.
Qed.

Lemma missing_interface_reported_witness :
  mainAction (demoEnv configNoInterfaceCtx) demoApp configNoInterfaceCtx demoHeap
  = mkRes [] demoHeap (Ret (Some ErrNoInterfaceSpecified)).
Proof.
  apply (missing_interface_reported (demoEnv configNoInterfaceCtx) demoApp
           configNoInterfaceCtx demoHeap).
  - right; left.
  - reflexivity.
  - intros _. by eexists.
Defined.

(** C2, as stated, fails in list-config mode: with no per-interface
    option callback registered, [--extcap-config] without
    [--extcap-interface] returns success. *)
Lemma missing_interface_not_reported_without_option_callback :
  ¬ missing_interface_reported_in_every_mode.
Proof.
  intros Hclaim.
  specialize (Hclaim (demoEnv configNoInterfaceCtx) bareApp
                     configNoInterfaceCtx ∅).
  assert (mainAction (demoEnv configNoInterfaceCtx) bareApp
            configNoInterfaceCtx ∅ = mkRes [] ∅ (Ret None)) as Hrun
    by reflexivity.
  rewrite Hrun in Hclaim.
  discriminate Hclaim; [right; left|reflexivity].
Qed.

(** C3. A capture invocation with [--capture] and [--extcap-interface]
    set and [--fifo] not set returns [ErrNoPipeProvided]; neither the
    pipe opener nor the capture callback is called. *)
Theorem capture_without_fifo env extapp ctx (h : Heap) :
  selectMode ctx = Capture →
  ctx_IsSet ctx "extcap-interface" = true →
  ctx_IsSet ctx "fifo" = false →
  mainAction env extapp ctx h = mkRes [] h (Ret (Some ErrNoPipeProvided)).
Proof.
  intros Hmode Hiface Hfifo.
  by rewrite mainAction_runMode, Hmode; cbn [runMode];
    rewrite capture_run, Hiface, Hfifo.
Qed.

Lemma capture_without_fifo_witness :
  mainAction (demoEnv captureNoFifoCtx) demoApp captureNoFifoCtx demoHeap
  = mkRes [] demoHeap (Ret (Some ErrNoPipeProvided)).
Proof.
  apply (capture_without_fifo (demoEnv captureNoFifoCtx) demoApp
           captureNoFifoCtx demoHeap); reflexivity.
Defined.

(** C4. In capture mode the options map handed to the capture callback
    has an entry for a name exactly when [ctx.FlagNames()] reports the
    name and it is none of [extcap-interface], [fifo],
    [extcap-capture-filter]; the entry is the flag's parsed value
    [ctx.Value(name)].  The callback is called once, after the opener,
    with the interface, the pipe, the filter and this map. *)
Theorem capture_options_map env extapp ctx (h : Heap) start pipe :
  selectMode ctx = Capture →
  ctx_IsSet ctx "extcap-interface" = true →
  ctx_IsSet ctx "fifo" = true →
  rawOpener env extapp (ctx_String ctx "fifo") = (pipe, None) →
  StartCapture extapp = Some start →
  ∃ opts : gmap string Value,
    mainAction env extapp ctx h =
      mkRes [openerEvent extapp (ctx_String ctx "fifo");
             EvStartCapture (ctx_String ctx "extcap-interface") pipe
                            (ctx_String ctx "extcap-capture-filter") opts]
            h
            (Ret (start (ctx_String ctx "extcap-interface") pipe
                        (ctx_String ctx "extcap-capture-filter") opts))
    ∧ ∀ name,
        opts !! name =
        if bool_decide (name ∈ ctx_FlagNames ctx ∧ name ∉ excludedFromOpts)
        then Some (ctx_Value ctx name) else None.
Proof.
  intros Hmode Hiface Hfifo Hopen Hstart. exists (collectOpts ctx).
  split; [|apply collectOpts_lookup].
  rewrite mainAction_runMode, Hmode. cbn [runMode].
  by rewrite capture_run, Hiface, Hfifo; cbn zeta; rewrite Hopen, Hstart.
Qed.

Lemma capture_options_map_witness :
  ∃ opts : gmap string Value,
    events (mainAction (demoEnv captureCtx) demoApp captureCtx demoHeap) =
      [EvOsOpenFile "/tmp/p"; EvStartCapture "eth0" (Sink 3) "tcp" opts]
    ∧ opts !! "verbose" = Some (VBool true)
    ∧ opts !! "extcap-interface" = None
    ∧ opts !! "fifo" = None
    ∧ opts !! "extcap-capture-filter" = None.
Proof.
  destruct (capture_options_map (demoEnv captureCtx) demoApp captureCtx
              demoHeap (λ _ _ _ _, None) (Sink 3))
    as (opts & Hrun & Hopts); try reflexivity.
  exists opts. rewrite Hrun, !Hopts. repeat split.
Defined.

(** C5. In list-config mode, when the per-interface option callback
    returns n options, the dispatcher prints exactly n lines, in the
    callback's order, and the k-th line (counting from 0) shows the k-th
    option carrying ordinal k. *)
Theorem listConfig_ordinals env extapp ctx (h : Heap) getOptions opts objs :
  selectMode ctx = ListConfig →
  ctx_IsSet ctx "extcap-interface" = true →
  GetConfigOptions extapp = Some getOptions →
  getOptions (ctx_String ctx "extcap-interface") = (opts, None) →
  Forall2 (λ p o, h !! p = Some o) opts objs →
  events (mainAction env extapp ctx h) =
    EvGetConfigOptions (ctx_String ctx "extcap-interface")
    :: imap (λ k o, EvPrintln (POption (setNumber (Z.of_nat k) o))) objs
  ∧ outcome (mainAction env extapp ctx h) = Ret None
  ∧ printed (mainAction env extapp ctx h) =
      imap (λ k o, POption (setNumber (Z.of_nat k) o)) objs
  ∧ length (printed (mainAction env extapp ctx h)) = length opts
  ∧ ∀ k o, objs !! k = Some o →
      number (setNumber (Z.of_nat k) o) = Z.of_nat k.
Proof.
  intros Hmode Hiface Hcb Hopts Hobjs.
  rewrite mainAction_runMode, Hmode. cbn [runMode].
  rewrite listConfig_run, Hcb, Hiface. cbn zeta. rewrite Hopts. cbn [fst snd].
  destruct (for_range_from_numberAndPrint opts objs 0 h) as [Hev Hout].
  { eapply Forall2_impl; [exact Hobjs|]. intros p o Hp. by exists o. }
  unfold for_range. cbn [events outcome]. rewrite Hev, Hout.
  assert (∀ (l : list ConfigOption) (f : nat → ConfigOption → Printable),
            omap (λ e, match e with EvPrintln p => Some p | _ => None end)
                 (imap (λ k o, EvPrintln (f k o)) l) = imap f l) as Hprinted.
  { induction l as [|o l IH]; intros f; [done|].
    cbn. f_equal. apply (IH (f ∘ S)). }
  pose proof (Hprinted objs (λ k o, POption (setNumber (Z.of_nat k) o)))
    as Hlines.
  repeat split.
  - exact Hlines.
  - unfold printed. cbn [events omap].
    etrans; [exact (f_equal length Hlines)|].
    rewrite length_imap. symmetry. by eapply Forall2_length.
  - intros k o _. apply number_setNumber.
Qed.

Lemma listConfig_ordinals_witness :
  printed (mainAction (demoEnv configCtx) demoApp configCtx demoHeap) =
    [POption (setNumber 0 hostOpt); POption (setNumber 1 portOpt);
     POption (setNumber 2 hostOpt)]
  ∧ outcome (mainAction (demoEnv configCtx) demoApp configCtx demoHeap)
    = Ret None.
Proof.
  destruct (listConfig_ordinals (demoEnv configCtx) demoApp configCtx demoHeap
              (λ _, ([1; 2; 1]%positive, None)) [1; 2; 1]%positive
              [hostOpt; portOpt; hostOpt])
    as (_ & Hout & Hprinted & _); try reflexivity.
  - repeat constructor.
  - by rewrite Hprinted, Hout.
Defined.

(** C6. In list-config mode, when no per-interface option callback is
    registered, the dispatcher returns success, prints nothing and calls
    no callback. *)
Theorem listConfig_without_callback env extapp ctx (h : Heap) :
  selectMode ctx = ListConfig →
  GetConfigOptions extapp = None →
  mainAction env extapp ctx h = mkRes [] h (Ret None).
Proof.
  intros Hmode Hcb. rewrite mainAction_runMode, Hmode. cbn [runMode].
  by rewrite listConfig_run, Hcb.
Qed.

Lemma listConfig_without_callback_witness :
  mainAction (demoEnv configCtx) bareApp configCtx demoHeap
  = mkRes [] demoHeap (Ret None).
Proof.
  apply (listConfig_without_callback (demoEnv configCtx) bareApp configCtx
           demoHeap); reflexivity.
Defined.

(** C7, as amended. In capture mode, if opening the destination pipe
    fails, capture mode ends with an error and the capture callback is
    never called.  With the built-in opener (no [OpenPipe] set) the error
    is the one [os.OpenFile] reported, wrapped with the context
    "unable to open pipe"; the error of an opener supplied by the caller
    is returned as it is. *)
Theorem pipe_open_failure env extapp ctx (h : Heap) pipe e :
  selectMode ctx = Capture →
  ctx_IsSet ctx "extcap-interface" = true →
  ctx_IsSet ctx "fifo" = true →
  rawOpener env extapp (ctx_String ctx "fifo") = (pipe, Some e) →
  mainAction env extapp ctx h =
    mkRes [openerEvent extapp (ctx_String ctx "fifo")] h
          (Ret (Some (openError extapp e)))
  ∧ (OpenPipe extapp = None →
     openError extapp e = Errorf "unable to open pipe" e
     ∧ Error_text (openError extapp e) = "unable to open pipe: " ++ Error_text e
     ∧ Unwrap (openError extapp e) = Some e)
  ∧ (is_Some (OpenPipe extapp) → openError extapp e = e).
Proof.
  intros Hmode Hiface Hfifo Hopen. split; [|split].
  - rewrite mainAction_runMode, Hmode. cbn [runMode].
    by rewrite capture_run, Hiface, Hfifo; cbn zeta; rewrite Hopen.
  - unfold openError. by intros ->.
  - unfold openError. by intros [f ->].
Qed.

Lemma pipe_open_failure_witness :
  mainAction (demoEnv captureBadFifoCtx) demoApp captureBadFifoCtx demoHeap =
    mkRes [EvOsOpenFile "/no/such/fifo"] demoHeap
          (Ret (Some (Errorf "unable to open pipe"
                             (CallerError "no such file or directory")))).
Proof.
  apply (pipe_open_failure (demoEnv captureBadFifoCtx) demoApp
           captureBadFifoCtx demoHeap nilWriteCloser
           (CallerError "no such file or directory")); reflexivity.
Defined.

(** C7, as stated, fails for an opener supplied by the caller: its error
    is returned without the context "unable to open pipe". *)
Lemma callers_opener_error_not_wrapped :
  ¬ pipe_error_wrapped_for_every_opener.
Proof.
  intros Hclaim.
  specialize (Hclaim (demoEnv captureCtx) failingOpenerApp captureCtx ∅
                     nilWriteCloser (CallerError "refused")).
  assert (mainAction (demoEnv captureCtx) failingOpenerApp captureCtx ∅
          = mkRes [EvOpenPipe "/tmp/p"] ∅ (Ret (Some (CallerError "refused"))))
    as Hrun by reflexivity.
  rewrite Hrun in Hclaim. discriminate Hclaim; reflexivity.
Qed.

(** C8. If the global-options callback returns an option that is none of
    the string, boolean and integer variants, [Run] panics while building
    the flag schema: whatever the arguments and whatever the flag library
    would do with them, nothing has happened but the call of that
    callback, so no mode has run. *)
Theorem Run_unsupported_option_aborts env extapp arguments (h : Heap)
    getAll p :
  GetAllConfigOptions extapp = Some getAll →
  p ∈ getAll () →
  is_Some (unknownType (h !! p)) →
  ∃ t, Run env extapp arguments h =
       mkRes [EvGetAllConfigOptions] h (Panicked (unknownTypePanic t)).
Proof.
  intros Hcb Hin Hp. unfold Run. cbn zeta. cbn [GetAllConfigOptions].
  rewrite Hcb, !bind_run. cbn [emit events heap_after outcome].
  destruct (addFlags_unknown (getAll ()) staticFlags h p Hin Hp) as [t ->].
  by exists t.
Qed.

Lemma Run_unsupported_option_aborts_witness :
  ∃ t, Run (demoEnv captureCtx) selectorApp ["--capture"] demoHeap =
       mkRes [EvGetAllConfigOptions] demoHeap (Panicked (unknownTypePanic t)).
Proof.
  apply (Run_unsupported_option_aborts (demoEnv captureCtx) selectorApp
           ["--capture"] demoHeap (λ _, [1; 3; 2]%positive) 3%positive).
  - reflexivity.
  - right; left.
  - by eexists.
Defined.

(** C9. In list-interfaces mode, when the enumeration callback succeeds
    the dispatcher prints the version line and then one line per
    interface in the callback's order, each of the form
    [interface {value=...}{display=...}]; when the callback fails its
    error is returned as it is and nothing is printed. *)
Theorem listInterfaces_output env extapp ctx (h : Heap)
    getInterfaces ifaces err :
  selectMode ctx = ListInterfaces →
  GetInterfaces extapp = Some getInterfaces →
  getInterfaces () = (ifaces, err) →
  mainAction env extapp ctx h =
    match err with
    | None =>
        mkRes (EvGetInterfaces :: EvPrintln (PVersion (Version extapp))
                 :: ((λ i, EvPrintln (PInterface i)) <$> ifaces))
              h (Ret None)
    | Some e => mkRes [EvGetInterfaces] h (Ret (Some e))
    end
  ∧ printed (mainAction env extapp ctx h) =
    match err with
    | None => PVersion (Version extapp) :: (PInterface <$> ifaces)
    | Some e => []
    end
  ∧ ∀ i, render (PInterface i) =
         Some ("interface {value=" ++ iface_value i
               ++ "}{display=" ++ iface_display i ++ "}").
Proof.
  intros Hmode Hcb Hres.
  assert (mainAction env extapp ctx h =
    match err with
    | None =>
        mkRes (EvGetInterfaces :: EvPrintln (PVersion (Version extapp))
                 :: ((λ i, EvPrintln (PInterface i)) <$> ifaces))
              h (Ret None)
    | Some e => mkRes [EvGetInterfaces] h (Ret (Some e))
    end) as Hrun.
  { rewrite mainAction_runMode, Hmode. cbn [runMode].
    rewrite listInterfaces_run, Hcb, Hres. by destruct err. }
  split; [exact Hrun|]. split; [|done].
  rewrite Hrun. destruct err; [done|].
  unfold printed. cbn. f_equal.
  clear. induction ifaces as [|i ifaces IH]; [done|]. cbn. by f_equal.
Qed.

Lemma listInterfaces_output_witness :
  printed (mainAction (demoEnv interfacesCtx) demoApp interfacesCtx demoHeap)
  = [PVersion (Version demoApp); PInterface eth0]
  ∧ render (PInterface eth0) = Some "interface {value=eth0}{display=Ethernet}".
Proof.
  destruct (listInterfaces_output (demoEnv interfacesCtx) demoApp interfacesCtx
              demoHeap (λ _, ([eth0], None)) [eth0] None)
    as (_ & Hprinted & Hline); try reflexivity.
  split; [exact Hprinted|exact (Hline eth0)].
Defined.

(** C10, as amended. [mainAction] does not test [GetInterfaces], [GetDLT]
    or [StartCapture] for nil: with the flags of the mode set and the
    callback left unset, calling it panics; no typed error is returned.
    In capture mode this is reached once the pipe has been opened
    successfully. *)
Theorem unset_callback_panics env extapp ctx (h : Heap) :
  (selectMode ctx = ListInterfaces →
   GetInterfaces extapp = None →
   mainAction env extapp ctx h = mkRes [] h (Panicked NilDereference))
  ∧ (selectMode ctx = ListDLTs →
     ctx_IsSet ctx "extcap-interface" = true →
     GetDLT extapp = None →
     mainAction env extapp ctx h = mkRes [] h (Panicked NilDereference))
  ∧ (selectMode ctx = Capture →
     ctx_IsSet ctx "extcap-interface" = true →
     ctx_IsSet ctx "fifo" = true →
     (rawOpener env extapp (ctx_String ctx "fifo")).2 = None →
     StartCapture extapp = None →
     mainAction env extapp ctx h =
       mkRes [openerEvent extapp (ctx_String ctx "fifo")] h
             (Panicked NilDereference)).
Proof.
  rewrite mainAction_runMode. repeat split.
  - intros -> Hcb. cbn [runMode]. by rewrite listInterfaces_run, Hcb.
  - intros -> Hiface Hcb. cbn [runMode]. by rewrite listDLTs_run, Hiface, Hcb.
  - intros -> Hiface Hfifo Hopen Hcb. cbn [runMode].
    rewrite capture_run, Hiface, Hfifo. cbn zeta.
    destruct (rawOpener env extapp _) as [pipe err]. cbn in Hopen.
    by rewrite Hopen, Hcb.
Qed.

Lemma unset_callback_panics_witness :
  mainAction (demoEnv captureCtx) bareApp captureCtx demoHeap =
    mkRes [EvOsOpenFile "/tmp/p"] demoHeap (Panicked NilDereference).
Proof.
  apply (unset_callback_panics (demoEnv captureCtx) bareApp captureCtx
           demoHeap); reflexivity.
Defined.

(** C10, as stated, fails in capture mode: when the opener fails,
    [mainAction] returns the opener's error and never reaches the unset
    [StartCapture]. *)
Lemma unset_StartCapture_not_reached_when_open_fails :
  ¬ unset_callback_panics_in_every_mode.
Proof.
  intros Hclaim.
  destruct (Hclaim (demoEnv captureCtx) failingOpenerApp captureCtx ∅)
    as (_ & _ & Hcapture).
  assert (outcome (mainAction (demoEnv captureCtx) failingOpenerApp
                     captureCtx ∅) = Ret (Some (CallerError "refused")))
    as Hrun by reflexivity.
  rewrite Hrun in Hcapture. discriminate Hcapture; reflexivity.
Qed.

(** * Further properties of the code *)

(** ** The loop over the per-interface options *)

Lemma same_option_setNumber_l (n : Z) (o : ConfigOption) :
  same_option (setNumber n o) o.
Proof. unfold same_option. apply setNumber_setNumber. Qed.

(** The loop writes through the pointers it is given and through no
    other, also when it stops at a nil entry. *)
Lemma for_range_from_untouched (opts : list loc) :
  ∀ (i : Z) (h : Heap) (q : loc),
    q ∉ opts →
    heap_after (for_range_from i opts numberAndPrint h) !! q = h !! q.
Proof.
  induction opts as [|p opts IH]; intros i h q Hq; [done|].
  apply not_elem_of_cons in Hq as [Hne Hq].
  cbn [for_range_from]. rewrite bind_run, numberAndPrint_run.
  destruct (h !! p) as [o|] eqn:Hp; cbn [events heap_after outcome]; [|done].
  transitivity (heap_after (for_range_from (i + 1) opts numberAndPrint
                              (<[p := setNumber i o]> h)) !! q).
  { by destruct (outcome (for_range_from (i + 1) opts numberAndPrint
                            (<[p := setNumber i o]> h))). }
  rewrite IH by done. by rewrite lookup_insert_ne.
Qed.

(** Whatever the loop does to an object, it is to its ordinal. *)
Lemma for_range_from_related (opts : list loc) :
  ∀ (i : Z) (h : Heap) (q : loc) (o : ConfigOption),
    h !! q = Some o →
    ∃ o', heap_after (for_range_from i opts numberAndPrint h) !! q = Some o'
          ∧ same_option o' o.
Proof.
  induction opts as [|p opts IH]; intros i h q o Hq; [by exists o|].
  cbn [for_range_from]. rewrite bind_run, numberAndPrint_run.
  destruct (h !! p) as [op|] eqn:Hp; cbn [events heap_after outcome];
    [|by exists o].
  assert (∃ o1, <[p := setNumber i op]> h !! q = Some o1 ∧ same_option o1 o)
    as (o1 & Hq1 & Ho1).
  { destruct (decide (p = q)) as [->|Hne].
    - rewrite lookup_insert_eq. eexists; split; [done|].
      rewrite Hp in Hq. injection Hq as ->. apply same_option_setNumber_l.
    - rewrite lookup_insert_ne by done. by exists o. }
  destruct (IH (i + 1) _ q o1 Hq1) as (o' & Hq' & Ho').
  exists o'. split; [|unfold same_option in *; congruence].
  by destruct (outcome (for_range_from (i + 1) opts numberAndPrint
                          (<[p := setNumber i op]> h))).
Qed.

(** After the loop an object carries the ordinal of the last position at
    which its pointer was returned. *)
Lemma for_range_from_stored (opts : list loc) :
  ∀ (objs : list ConfigOption) (i : Z) (h : Heap) (k : nat) p o,
    Forall2 (λ p o, ∃ o', h !! p = Some o' ∧ same_option o' o) opts objs →
    opts !! k = Some p → objs !! k = Some o →
    (∀ j, (k < j)%nat → opts !! j ≠ Some p) →
    heap_after (for_range_from i opts numberAndPrint h) !! p
    = Some (setNumber (i + Z.of_nat k) o).
Proof.
  induction opts as [|q opts IH]; intros objs i h k p o Hobjs Hk Ho Hlast;
    [done|].
  apply Forall2_cons_inv_l in Hobjs as (oq & objs' & (oq' & Hq & Hoq) & Hrest & ->).
  assert (Forall2 (λ p o, ∃ o', <[q := setNumber i oq']> h !! p = Some o'
                                ∧ same_option o' o) opts objs') as Hrest'.
  { eapply Forall2_impl; [exact Hrest|].
    intros r or (or' & Hr & Hor). destruct (decide (q = r)) as [->|Hne].
    - rewrite lookup_insert_eq. eexists; split; [done|].
      rewrite Hq in Hr. injection Hr as <-.
      unfold same_option in *. by rewrite setNumber_setNumber.
    - rewrite lookup_insert_ne by done. eauto. }
  cbn [for_range_from]. rewrite bind_run, numberAndPrint_run, Hq.
  cbn [events heap_after outcome].
  transitivity (heap_after (for_range_from (i + 1) opts numberAndPrint
                              (<[q := setNumber i oq']> h)) !! p).
  { by destruct (outcome (for_range_from (i + 1) opts numberAndPrint
                            (<[q := setNumber i oq']> h))). }
  destruct k as [|k].
  - cbn in Hk, Ho. injection Hk as ->. injection Ho as ->.
    rewrite for_range_from_untouched.
    + rewrite lookup_insert_eq, Z.add_0_r.
      by rewrite (same_option_setNumber i oq' o).
    + intros (j & Hj)%list_elem_of_lookup. by apply (Hlast (S j)); [lia|].
  - cbn in Hk, Ho.
    rewrite (IH objs' (i + 1) _ k p o Hrest' Hk Ho).
    + do 2 f_equal. lia.
    + intros j Hj. apply (Hlast (S j)). lia.
Qed.

(** The loop stops at the first nil entry, the lines of the entries
    before it printed. *)
Lemma for_range_from_nil (pre : list loc) :
  ∀ (objs : list ConfigOption) (i : Z) (h : Heap) (p : loc) (rest : list loc),
    Forall2 (λ p o, ∃ o', h !! p = Some o' ∧ same_option o' o) pre objs →
    h !! p = None →
    events (for_range_from i (pre ++ p :: rest) numberAndPrint h) =
      imap (λ k o, EvPrintln (POption (setNumber (i + Z.of_nat k) o))) objs
    ∧ outcome (for_range_from i (pre ++ p :: rest) numberAndPrint h)
      = Panicked NilDereference.
Proof.
  induction pre as [|q pre IH]; intros objs i h p rest Hobjs Hp.
  { apply Forall2_nil_inv_l in Hobjs as ->.
    cbn [app for_range_from]. by rewrite bind_run, numberAndPrint_run, Hp. }
  apply Forall2_cons_inv_l in Hobjs as (o & objs' & (o' & Hq & Ho) & Hrest & ->).
  cbn [app for_range_from]. rewrite bind_run, numberAndPrint_run, Hq.
  cbn [events heap_after outcome].
  assert (p ≠ q) as Hne by congruence.
  destruct (IH objs' (i + 1) (<[q := setNumber i o']> h) p rest) as [Hev Hout].
  { eapply Forall2_impl; [exact Hrest|].
    intros r or (or' & Hr & Hor). destruct (decide (q = r)) as [->|Hne'].
    - rewrite lookup_insert_eq. eexists; split; [done|].
      rewrite Hq in Hr. injection Hr as <-.
      unfold same_option in *. by rewrite setNumber_setNumber.
    - rewrite lookup_insert_ne by done. eauto. }
  { by rewrite lookup_insert_ne. }
  rewrite Hev, Hout. split; [|done].
  cbn [imap app events]. f_equal.
  - by rewrite Z.add_0_r, (same_option_setNumber i o' o).
  - apply imap_ext. intros k x _. cbn. do 3 f_equal. lia.
Qed.

(** The loop never ends the process. *)
Lemma for_range_from_not_exited (opts : list loc) :
  ∀ (i : Z) (h : Heap) (c : Z),
    outcome (for_range_from i opts numberAndPrint h) ≠ Exited c.
Proof.
  induction opts as [|p opts IH]; intros i h c; [done|].
  cbn [for_range_from]. rewrite bind_run, numberAndPrint_run.
  destruct (h !! p) as [o|]; cbn [events heap_after outcome]; [|done].
  specialize (IH (i + 1) (<[p := setNumber i o]> h) c).
  by destruct (outcome (for_range_from (i + 1) opts numberAndPrint
                          (<[p := setNumber i o]> h))).
Qed.

Lemma allocated_objects (h : Heap) (opts : list loc) :
  Forall (λ p, is_Some (h !! p)) opts →
  ∃ objs, Forall2 (λ p o, h !! p = Some o) opts objs.
Proof.
  induction 1 as [|p opts [o Hp] _ [objs IH]]; [by exists []|].
  exists (o :: objs). by constructor.
Qed.

(** ** List DLTs and list configuration options *)

(** X1. In list-DLTs mode with the interface given, the DLT callback is
    called once with that interface; on success exactly one line, the
    DLT, is printed and nil returned; on failure the callback's error is
    returned as it is and nothing is printed. *)
Theorem listDLTs_output env extapp ctx (h : Heap) getDLT dlt err :
  selectMode ctx = ListDLTs →
  ctx_IsSet ctx "extcap-interface" = true →
  GetDLT extapp = Some getDLT →
  getDLT (ctx_String ctx "extcap-interface") = (dlt, err) →
  mainAction env extapp ctx h =
    match err with
    | None =>
        mkRes [EvGetDLT (ctx_String ctx "extcap-interface");
               EvPrintln (PDLT dlt)] h (Ret None)
    | Some e =>
        mkRes [EvGetDLT (ctx_String ctx "extcap-interface")] h (Ret (Some e))
    end.
Proof.
  intros Hmode Hiface Hcb Hres. rewrite mainAction_runMode, Hmode.
  cbn [runMode]. rewrite listDLTs_run, Hiface, Hcb. cbn zeta. rewrite Hres.
  by destruct err.
Qed.

Lemma listDLTs_output_witness :
  mainAction (demoEnv dltsCtx) failingCallbacksApp dltsCtx demoHeap =
    mkRes [EvGetDLT "eth0"] demoHeap
          (Ret (Some (CallerError "unknown interface"))).
Proof.
  apply (listDLTs_output (demoEnv dltsCtx) failingCallbacksApp dltsCtx demoHeap
           (λ _, ({| dlt_number := 0; dlt_name := ""; dlt_display := "" |},
                  Some (CallerError "unknown interface")))
           {| dlt_number := 0; dlt_name := ""; dlt_display := "" |}
           (Some (CallerError "unknown interface"))); reflexivity.
Defined.

(** X2. In list-config mode, when the per-interface option callback
    returns an error, that error is returned as it is: no line is
    printed and no option object is written, whatever options came with
    the error. *)
Theorem listConfig_callback_error env extapp ctx (h : Heap)
    getOptions opts e :
  selectMode ctx = ListConfig →
  ctx_IsSet ctx "extcap-interface" = true →
  GetConfigOptions extapp = Some getOptions →
  getOptions (ctx_String ctx "extcap-interface") = (opts, Some e) →
  mainAction env extapp ctx h =
    mkRes [EvGetConfigOptions (ctx_String ctx "extcap-interface")] h
          (Ret (Some e)).
Proof.
  intros Hmode Hiface Hcb Hres. rewrite mainAction_runMode, Hmode.
  cbn [runMode]. rewrite listConfig_run, Hcb, Hiface. cbn zeta.
  by rewrite Hres.
Qed.

Lemma listConfig_callback_error_witness :
  mainAction (demoEnv configCtx) failingCallbacksApp configCtx demoHeap =
    mkRes [EvGetConfigOptions "eth0"] demoHeap
          (Ret (Some (CallerError "unknown interface"))).
Proof.
  apply (listConfig_callback_error (demoEnv configCtx) failingCallbacksApp
           configCtx demoHeap
           (λ _, ([1; 2]%positive, Some (CallerError "unknown interface")))
           [1; 2]%positive); reflexivity.
Defined.

(** X3. In list-config mode a nil entry among the returned options makes
    the dispatcher panic at that entry: the lines of the entries before
    it have been printed, with their ordinals, and none after. *)
Theorem listConfig_nil_option env extapp ctx (h : Heap)
    getOptions (pre : list loc) p rest objs :
  selectMode ctx = ListConfig →
  ctx_IsSet ctx "extcap-interface" = true →
  GetConfigOptions extapp = Some getOptions →
  getOptions (ctx_String ctx "extcap-interface")
  = ((pre ++ p :: rest)%list, None) →
  Forall2 (λ q o, h !! q = Some o) pre objs →
  h !! p = None →
  events (mainAction env extapp ctx h) =
    EvGetConfigOptions (ctx_String ctx "extcap-interface")
    :: imap (λ k o, EvPrintln (POption (setNumber (Z.of_nat k) o))) objs
  ∧ outcome (mainAction env extapp ctx h) = Panicked NilDereference.
Proof.
  intros Hmode Hiface Hcb Hres Hobjs Hp.
  rewrite mainAction_runMode, Hmode. cbn [runMode].
  rewrite listConfig_run, Hcb, Hiface. cbn zeta. rewrite Hres. cbn [fst snd].
  destruct (for_range_from_nil pre objs 0 h p rest) as [Hev Hout]; [|done|].
  { eapply Forall2_impl; [exact Hobjs|]. intros q o Hq. by exists o. }
  unfold for_range. cbn [events outcome]. by rewrite Hev, Hout.
Qed.

Lemma listConfig_nil_option_witness :
  events (mainAction (demoEnv configCtx) nilOptionApp configCtx demoHeap) =
    [EvGetConfigOptions "eth0"; EvPrintln (POption (setNumber 0 hostOpt))]
  ∧ outcome (mainAction (demoEnv configCtx) nilOptionApp configCtx demoHeap)
    = Panicked NilDereference.
Proof.
  apply (listConfig_nil_option (demoEnv configCtx) nilOptionApp configCtx
           demoHeap (λ _, ([1; 9; 2]%positive, None)) [1%positive] 9%positive
           [2%positive] [hostOpt]); try reflexivity.
  repeat constructor.
Defined.

(** X4. List-config mode writes the ordinals into the caller's option
    objects: afterwards the object behind a returned pointer carries the
    ordinal of the last position at which the pointer was returned and is
    otherwise as it was, and an object whose pointer was not returned is
    untouched. *)
Theorem listConfig_stores_ordinals env extapp ctx (h : Heap)
    getOptions opts objs :
  selectMode ctx = ListConfig →
  ctx_IsSet ctx "extcap-interface" = true →
  GetConfigOptions extapp = Some getOptions →
  getOptions (ctx_String ctx "extcap-interface") = (opts, None) →
  Forall2 (λ p o, h !! p = Some o) opts objs →
  (∀ k p o,
     opts !! k = Some p → objs !! k = Some o →
     (∀ j, (k < j)%nat → opts !! j ≠ Some p) →
     heap_after (mainAction env extapp ctx h) !! p
     = Some (setNumber (Z.of_nat k) o))
  ∧ (∀ q, q ∉ opts → heap_after (mainAction env extapp ctx h) !! q = h !! q).
Proof.
  intros Hmode Hiface Hcb Hres Hobjs.
  rewrite mainAction_runMode, Hmode. cbn [runMode].
  rewrite listConfig_run, Hcb, Hiface. cbn zeta. rewrite Hres. cbn [fst snd].
  unfold for_range. cbn [heap_after]. split.
  - intros k p o Hk Ho Hlast.
    rewrite (for_range_from_stored opts objs 0 h k p o); [done| |done..].
    eapply Forall2_impl; [exact Hobjs|]. intros q oq Hq. by exists oq.
  - intros q Hq. by apply for_range_from_untouched.
Qed.

Lemma listConfig_stores_ordinals_witness :
  heap_after (mainAction (demoEnv configCtx) demoApp configCtx demoHeap)
    !! 1%positive = Some (setNumber 2 hostOpt)
  ∧ heap_after (mainAction (demoEnv configCtx) demoApp configCtx demoHeap)
      !! 3%positive = Some selectorOpt.
Proof.
  destruct (listConfig_stores_ordinals (demoEnv configCtx) demoApp configCtx
              demoHeap (λ _, ([1; 2; 1]%positive, None)) [1; 2; 1]%positive
              [hostOpt; portOpt; hostOpt]) as [Hstored Hother];
    try reflexivity.
  - repeat constructor.
  - split.
    + apply (Hstored 2%nat 1%positive hostOpt); try reflexivity.
      intros [|[|[|j]]] Hj; try lia; discriminate.
    + rewrite Hother; [reflexivity|].
      intros Hin. by repeat (apply elem_of_cons in Hin as [?|Hin]);
        [..|apply elem_of_nil in Hin].
Defined.

Lemma listConfig_lines_related extapp ctx (h : Heap) getOptions opts objs :
  ctx_IsSet ctx "extcap-interface" = true →
  GetConfigOptions extapp = Some getOptions →
  getOptions (ctx_String ctx "extcap-interface") = (opts, None) →
  Forall2 (λ p o, ∃ o', h !! p = Some o' ∧ same_option o' o) opts objs →
  events (listConfig extapp ctx h) =
    EvGetConfigOptions (ctx_String ctx "extcap-interface")
    :: imap (λ k o, EvPrintln (POption (setNumber (Z.of_nat k) o))) objs
  ∧ outcome (listConfig extapp ctx h) = Ret None
  ∧ heap_after (listConfig extapp ctx h) = heap_after (for_range opts numberAndPrint h).
Proof.
  intros Hiface Hcb Hres Hobjs.
  rewrite listConfig_run, Hcb, Hiface. cbn zeta. rewrite Hres. cbn [fst snd].
  destruct (for_range_from_numberAndPrint opts objs 0 h Hobjs) as [Hev Hout].
  unfold for_range. cbn [events outcome heap_after]. by rewrite Hev, Hout.
Qed.

(** X5. List-config mode prints the same lines when it runs again on the
    objects it has numbered: the ordinals an earlier run left in the
    objects do not show. *)
Theorem listConfig_idempotent env extapp ctx (h : Heap)
    getOptions opts objs :
  selectMode ctx = ListConfig →
  ctx_IsSet ctx "extcap-interface" = true →
  GetConfigOptions extapp = Some getOptions →
  getOptions (ctx_String ctx "extcap-interface") = (opts, None) →
  Forall2 (λ p o, h !! p = Some o) opts objs →
  events (mainAction env extapp ctx
            (heap_after (mainAction env extapp ctx h)))
  = events (mainAction env extapp ctx h)
  ∧ outcome (mainAction env extapp ctx
               (heap_after (mainAction env extapp ctx h))) = Ret None
  ∧ heap_after (mainAction env extapp ctx
                  (heap_after (mainAction env extapp ctx h)))
    = heap_after (mainAction env extapp ctx h).
Proof.
  intros Hmode Hiface Hcb Hres Hobjs.
  rewrite !mainAction_runMode, Hmode. cbn [runMode].
  assert (Forall2 (λ p o, ∃ o', h !! p = Some o' ∧ same_option o' o) opts objs)
    as Hfirst.
  { eapply Forall2_impl; [exact Hobjs|]. intros p o Hp. by exists o. }
  destruct (listConfig_lines_related extapp ctx h getOptions opts objs)
    as (Hev1 & _ & Hheap1); [done..|].
  assert (Forall2 (λ p o, ∃ o', heap_after (listConfig extapp ctx h) !! p = Some o'
                                ∧ same_option o' o) opts objs) as Hsecond.
  { rewrite Hheap1. eapply Forall2_impl; [exact Hobjs|]. intros p o Hp.
    by apply for_range_from_related. }
  destruct (listConfig_lines_related extapp ctx _ getOptions opts objs
              Hiface Hcb Hres Hsecond) as (Hev2 & Hout2 & Hheap2).
  split; [by rewrite Hev1, Hev2|]. split; [done|].
  rewrite Hheap2, Hheap1. apply map_eq. intros q.
  destruct (decide (q ∈ opts)) as [Hin|Hout].
  - apply list_elem_of_lookup in Hin as [k Hk].
    assert (∃ k', opts !! k' = Some q ∧ ∀ j, (k' < j)%nat → opts !! j ≠ Some q)
      as (k' & Hk' & Hlast).
    { clear -Hk. revert k Hk. induction opts as [|p opts IH]; intros k Hk; [done|].
      destruct (decide (q ∈ opts)) as [Hin|Hnotin].
      - apply list_elem_of_lookup in Hin as [j Hj].
        destruct (IH j Hj) as (k' & Hk' & Hlast). exists (S k').
        split; [done|]. intros [|j'] Hlt; [lia|]. apply Hlast. lia.
      - exists 0%nat. destruct k as [|k].
        + split; [done|]. intros [|j] Hlt; [lia|]. cbn. intros Hj.
          apply Hnotin, list_elem_of_lookup. eauto.
        + exfalso. apply Hnotin, list_elem_of_lookup. eauto. }
    destruct (Forall2_lookup_l _ _ _ _ _ Hobjs Hk') as (o & Ho & _).
    rewrite Hheap1 in Hsecond. unfold for_range in *.
    rewrite (for_range_from_stored opts objs 0 _ k' q o Hsecond Hk' Ho Hlast).
    by rewrite (for_range_from_stored opts objs 0 h k' q o Hfirst Hk' Ho Hlast).
  - unfold for_range. by rewrite for_range_from_untouched.
Qed.

Lemma listConfig_idempotent_witness :
  events (mainAction (demoEnv configCtx) demoApp configCtx
            (heap_after (mainAction (demoEnv configCtx) demoApp configCtx
                           demoHeap)))
  = events (mainAction (demoEnv configCtx) demoApp configCtx demoHeap).
Proof.
  apply (listConfig_idempotent (demoEnv configCtx) demoApp configCtx demoHeap
           (λ _, ([1; 2; 1]%positive, None)) [1; 2; 1]%positive
           [hostOpt; portOpt; hostOpt]); try reflexivity.
  repeat constructor.
Defined.

(** ** What the dispatcher never does *)

(** X6. Outside list-config mode the dispatcher writes to no option
    object: the heap after [mainAction] is the heap before. *)
Theorem mainAction_heap_unchanged env extapp ctx (h : Heap) :
  selectMode ctx ≠ ListConfig →
  heap_after (mainAction env extapp ctx h) = h.
Proof.
  intros Hmode. rewrite mainAction_runMode.
  destruct (selectMode ctx); cbn [runMode]; [| |done| | |]; try reflexivity.
  - rewrite listInterfaces_run.
    destruct (GetInterfaces extapp) as [f|]; [|done]. by destruct (f ()).2.
  - rewrite listDLTs_run.
    destruct (ctx_IsSet ctx "extcap-interface"); [|done]. cbn zeta.
    destruct (GetDLT extapp) as [f|]; [|done]. by destruct (f _).2.
  - rewrite capture_run.
    destruct (ctx_IsSet ctx "extcap-interface"); [|done].
    destruct (ctx_IsSet ctx "fifo"); [|done]. cbn zeta.
    destruct (rawOpener env extapp _) as [pipe [e|]]; [done|].
    by destruct (StartCapture extapp).
Qed.

Lemma mainAction_heap_unchanged_witness :
  heap_after (mainAction (demoEnv captureCtx) demoApp captureCtx demoHeap)
  = demoHeap.
Proof.
  apply (mainAction_heap_unchanged (demoEnv captureCtx) demoApp captureCtx
           demoHeap).
  discriminate.
Defined.

(** X7. [mainAction] ends the process in one case only: capture-filter
    validation, that is [--extcap-capture-filter] set and none of
    [--extcap-interfaces], [--extcap-dlts], [--extcap-config],
    [--capture]; the status is then 0 and nothing has been called or
    printed. *)
Theorem mainAction_exits_only_for_filter_validation env extapp ctx
    (h : Heap) (c : Z) :
  outcome (mainAction env extapp ctx h) = Exited c
  ↔ ctx_IsSet ctx "extcap-interfaces" = false
    ∧ ctx_IsSet ctx "extcap-dlts" = false
    ∧ ctx_IsSet ctx "extcap-config" = false
    ∧ ctx_IsSet ctx "capture" = false
    ∧ ctx_IsSet ctx "extcap-capture-filter" = true
    ∧ c = 0
    ∧ mainAction env extapp ctx h = mkRes [] h (Exited 0).
Proof.
  rewrite mainAction_runMode, selectMode_cascade.
  destruct (ctx_IsSet ctx "extcap-interfaces"); cbn [runMode].
  { split; [|by intros (? & _)]. rewrite listInterfaces_run.
    destruct (GetInterfaces extapp) as [f|]; [|done]. by destruct (f ()).2. }
  destruct (ctx_IsSet ctx "extcap-dlts"); cbn [runMode].
  { split; [|by intros (_ & ? & _)]. rewrite listDLTs_run.
    destruct (ctx_IsSet ctx "extcap-interface"); [|done]. cbn zeta.
    destruct (GetDLT extapp) as [f|]; [|done]. by destruct (f _).2. }
  destruct (ctx_IsSet ctx "extcap-config"); cbn [runMode].
  { split; [|by intros (_ & _ & ? & _)]. rewrite listConfig_run.
    destruct (GetConfigOptions extapp) as [f|]; [|done].
    destruct (ctx_IsSet ctx "extcap-interface"); [|done]. cbn zeta.
    destruct (f _).2; [done|]. cbn [outcome].
    pose proof (for_range_from_not_exited (f (ctx_String ctx "extcap-interface")).1
                  0 h) as Hloop.
    unfold for_range.
    destruct (outcome (for_range_from 0 _ numberAndPrint h)) eqn:Hout;
      [done..|]. by destruct (Hloop code). }
  destruct (ctx_IsSet ctx "capture"); cbn [runMode].
  { split; [|by intros (_ & _ & _ & ? & _)]. rewrite capture_run.
    destruct (ctx_IsSet ctx "extcap-interface"); [|done].
    destruct (ctx_IsSet ctx "fifo"); [|done]. cbn zeta.
    destruct (rawOpener env extapp _) as [pipe [e|]]; [done|].
    by destruct (StartCapture extapp). }
  destruct (ctx_IsSet ctx "extcap-capture-filter"); cbn [runMode].
  - split; [|by intros (_ & _ & _ & _ & _ & -> & _)].
    by intros [= <-].
  - split; [done|]. by intros (_ & _ & _ & _ & ? & _).
Qed.

Lemma mainAction_exits_only_for_filter_validation_witness :
  mainAction (demoEnv filterCtx) bareApp filterCtx demoHeap
  = mkRes [] demoHeap (Exited 0).
Proof.
  apply (mainAction_exits_only_for_filter_validation (demoEnv filterCtx)
           bareApp filterCtx demoHeap 0).
  reflexivity.
Defined.

(** X8. [mainAction] does not panic when the callback of the selected
    mode is set and, in list-config mode, the options the callback
    returns are not nil. *)
Theorem mainAction_does_not_panic env extapp ctx (h : Heap) :
  (selectMode ctx = ListInterfaces → is_Some (GetInterfaces extapp)) →
  (selectMode ctx = ListDLTs → is_Some (GetDLT extapp)) →
  (selectMode ctx = Capture → is_Some (StartCapture extapp)) →
  (∀ getOptions,
     selectMode ctx = ListConfig →
     GetConfigOptions extapp = Some getOptions →
     Forall (λ p, is_Some (h !! p))
            (getOptions (ctx_String ctx "extcap-interface")).1) →
  ∀ v, outcome (mainAction env extapp ctx h) ≠ Panicked v.
Proof.
  intros Hifaces Hdlt Hcapture Hopts v. rewrite mainAction_runMode.
  destruct (selectMode ctx); cbn [runMode]; try done.
  - rewrite listInterfaces_run. destruct Hifaces as [f ->]; [done|].
    by destruct (f ()).2.
  - rewrite listDLTs_run.
    destruct (ctx_IsSet ctx "extcap-interface"); [|done]. cbn zeta.
    destruct Hdlt as [f ->]; [done|]. by destruct (f _).2.
  - rewrite listConfig_run.
    destruct (GetConfigOptions extapp) as [f|] eqn:Hcb; [|done].
    destruct (ctx_IsSet ctx "extcap-interface"); [|done]. cbn zeta.
    destruct (f _).2; [done|]. cbn [outcome].
    destruct (allocated_objects h _ (Hopts f eq_refl eq_refl)) as [objs Hobjs].
    destruct (for_range_from_numberAndPrint
                (f (ctx_String ctx "extcap-interface")).1 objs 0 h)
      as [_ Hout].
    { eapply Forall2_impl; [exact Hobjs|]. intros p o Hp. by exists o. }
    unfold for_range. by rewrite Hout.
  - rewrite capture_run.
    destruct (ctx_IsSet ctx "extcap-interface"); [|done].
    destruct (ctx_IsSet ctx "fifo"); [|done]. cbn zeta.
    destruct (rawOpener env extapp _) as [pipe [e|]]; [done|].
    by destruct Hcapture as [f ->].
Qed.

Lemma mainAction_does_not_panic_witness :
  outcome (mainAction (demoEnv configCtx) demoApp configCtx demoHeap)
  ≠ Panicked NilDereference.
Proof.
  apply (mainAction_does_not_panic (demoEnv configCtx) demoApp configCtx
           demoHeap); try discriminate.
  intros getOptions _ [= <-]. cbn. repeat constructor; by eexists.
Defined.

(** ** The options map *)

(** X9. The options map of capture mode depends on which names
    [ctx.FlagNames()] reports and on their values, not on the order of
    the names nor on a name being reported more than once. *)
Theorem collectOpts_order_insensitive (ctx ctx' : Context) :
  (∀ name, name ∈ ctx_FlagNames ctx ↔ name ∈ ctx_FlagNames ctx') →
  (∀ name, name ∈ ctx_FlagNames ctx → ctx_Value ctx name = ctx_Value ctx' name) →
  collectOpts ctx = collectOpts ctx'.
Proof.
  intros Hnames Hvalues. apply map_eq. intros name.
  rewrite !collectOpts_lookup.
  destruct (decide (name ∈ ctx_FlagNames ctx ∧ name ∉ excludedFromOpts))
    as [[Hin Hex]|Hno].
  - rewrite !bool_decide_eq_true_2; [|by split; [apply Hnames|]|done].
    by rewrite Hvalues.
  - rewrite !bool_decide_eq_false_2; [done| |done].
    intros [Hin Hex]. apply Hno. by split; [apply Hnames|].
Qed.

Lemma collectOpts_order_insensitive_witness :
  collectOpts captureCtx = collectOpts captureCtx'.
Proof.
  apply (collectOpts_order_insensitive captureCtx captureCtx').
  - intros name. cbn. rewrite !elem_of_cons, !elem_of_nil. tauto.
  - intros name. cbn. rewrite !elem_of_cons, elem_of_nil.
    intros [->|[->|[->|[->|[->|[]]]]]]; reflexivity.
Defined.

(** ** [App.Run] *)

Lemma addFlag_declares (flags : list Flag) (p : loc) (h : Heap) o :
  h !! p = Some o → unknownType (Some o) = None →
  ∃ flag, addFlag flags p h = mkRes [] h (Ret (flags ++ [flag])%list)
          ∧ declares o flag.
Proof.
  intros Hp Ho. unfold addFlag. exec. rewrite Hp.
  destruct o; cbn in Ho; [..|done]; eexists; by repeat split.
Qed.

Lemma addFlags_declares (opts : list loc) :
  ∀ (flags : list Flag) (h : Heap) (objs : list ConfigOption),
    Forall2 (λ p o, h !! p = Some o) opts objs →
    Forall (λ o, unknownType (Some o) = None) objs →
    ∃ added, addFlags flags opts h = mkRes [] h (Ret (flags ++ added)%list)
             ∧ Forall2 declares objs added.
Proof.
  induction opts as [|p opts IH]; intros flags h objs Hobjs Hsup.
  { apply Forall2_nil_inv_l in Hobjs as ->. exists [].
    by rewrite app_nil_r. }
  apply Forall2_cons_inv_l in Hobjs as (o & objs' & Hp & Hrest & ->).
  apply Forall_cons in Hsup as [Ho Hsup].
  destruct (addFlag_declares flags p h o Hp Ho) as (flag & Hflag & Hdecl).
  cbn [addFlags]. rewrite bind_run, Hflag. cbn [events heap_after outcome app].
  destruct (IH (flags ++ [flag])%list h objs' Hrest Hsup) as (added & -> & Hadded).
  exists (flag :: added). split; [by rewrite <-app_assoc|by constructor].
Qed.

(** [Run] once the flags are built. *)
Lemma Run_run env extapp arguments (h : Heap) (flags : list Flag) :
  match GetAllConfigOptions extapp with
  | None => flags = staticFlags
  | Some getAll => addFlags staticFlags (getAll ()) h = mkRes [] h (Ret flags)
  end →
  Run env extapp arguments h =
  reported (schemaEvents extapp)
           (cli_Run env (builtApp env extapp flags) arguments h).
Proof.
  intros Hflags. unfold Run, reported, schemaEvents. cbn zeta.
  cbn [GetAllConfigOptions Usage HelpPage].
  change {| Usage := Usage extapp; HelpPage := HelpPage extapp;
            Version := _; UsageExamples := _;
            GetInterfaces := GetInterfaces extapp; GetDLT := GetDLT extapp;
            GetConfigOptions := GetConfigOptions extapp;
            GetAllConfigOptions := GetAllConfigOptions extapp;
            StartCapture := StartCapture extapp; OpenPipe := OpenPipe extapp |}
    with (configured extapp).
  rewrite bind_run.
  destruct (GetAllConfigOptions extapp) as [getAll|].
  - rewrite bind_run. cbn [emit events heap_after outcome]. rewrite Hflags.
    cbn [events heap_after outcome app]. rewrite bind_run.
    change (mkCliApp _ _ _ flags _) with (builtApp env extapp flags).
    destruct (cli_Run env (builtApp env extapp flags) arguments h)
      as [ev h' [[e|]|v|c]]; cbn; by rewrite ?app_nil_r.
  - subst flags. cbn [mret M_ret events heap_after outcome app].
    rewrite bind_run.
    change (mkCliApp _ _ _ staticFlags _) with (builtApp env extapp staticFlags).
    destruct (cli_Run env (builtApp env extapp staticFlags) arguments h)
      as [ev h' [[e|]|v|c]]; cbn; by rewrite ?app_nil_r.
Qed.

(** X10. When every option the global-options callback returns is of a
    supported variant, [Run] hands the flag library the eight protocol
    flags followed by one flag per option, in the callback's order, each
    with the option's name, description, required flag and default; with
    no global-options callback it hands over the eight protocol flags
    alone.  The action it installs is [mainAction]. *)
Theorem Run_flag_schema env extapp arguments (h : Heap) objs :
  Forall2 (λ p o, h !! p = Some o) (globalOptions extapp) objs →
  Forall (λ o, unknownType (Some o) = None) objs →
  ∃ added,
    Forall2 declares objs added
    ∧ length staticFlags = 8%nat
    ∧ Run env extapp arguments h =
      reported (schemaEvents extapp)
               (cli_Run env (builtApp env extapp (staticFlags ++ added))
                        arguments h).
Proof.
  intros Hobjs Hsup. unfold globalOptions in Hobjs.
  destruct (GetAllConfigOptions extapp) as [getAll|] eqn:Hcb.
  - destruct (addFlags_declares (getAll ()) staticFlags h objs Hobjs Hsup)
      as (added & Hflags & Hdecl).
    exists added. split; [done|]. split; [done|].
    apply Run_run. by rewrite Hcb.
  - apply Forall2_nil_inv_l in Hobjs as ->. exists [].
    split; [constructor|]. split; [done|].
    rewrite app_nil_r. apply Run_run. by rewrite Hcb.
Qed.

Lemma Run_flag_schema_witness :
  ∃ added,
    Forall2 declares [portOpt; hostOpt] added
    ∧ length staticFlags = 8%nat
    ∧ Run (demoEnv interfacesCtx) globalOptionsApp ["--extcap-interfaces"]
          demoHeap =
      reported [EvGetAllConfigOptions]
               (cli_Run (demoEnv interfacesCtx)
                        (builtApp (demoEnv interfacesCtx) globalOptionsApp
                                  (staticFlags ++ added))
                        ["--extcap-interfaces"] demoHeap).
Proof.
  apply (Run_flag_schema (demoEnv interfacesCtx) globalOptionsApp
           ["--extcap-interfaces"] demoHeap [portOpt; hostOpt]);
    repeat constructor.
Defined.

Lemma Run_dispatched env extapp arguments ctx (h : Heap) :
  dispatches env arguments ctx →
  Forall (λ p, unknownType (h !! p) = None) (globalOptions extapp) →
  Run env extapp arguments h =
  reported (schemaEvents extapp) (mainAction env (configured extapp) ctx h).
Proof.
  intros Hlib Hsup. unfold globalOptions in Hsup.
  destruct (GetAllConfigOptions extapp) as [getAll|] eqn:Hcb.
  - destruct (addFlags_known (getAll ()) staticFlags h Hsup)
      as (added & _ & Hflags).
    rewrite (Run_run env extapp arguments h (staticFlags ++ added))
      by by rewrite Hcb.
    by rewrite Hlib.
  - rewrite (Run_run env extapp arguments h staticFlags) by by rewrite Hcb.
    by rewrite Hlib.
Qed.

(** X11. When the flag library parses the arguments and runs the action,
    and the global options (if any) are of supported variants, [Run]
    ends as [mainAction] does, except that an error returned by
    [mainAction] is written to standard error and the process exits with
    status -1; [Run] writes nothing to standard error otherwise. *)
Theorem Run_reports_result env extapp arguments ctx (h : Heap) :
  dispatches env arguments ctx →
  Forall (λ p, unknownType (h !! p) = None) (globalOptions extapp) →
  Run env extapp arguments h =
    let r := mainAction env (configured extapp) ctx h in
    match outcome r with
    | Ret None =>
        mkRes (schemaEvents extapp ++ events r) (heap_after r) (Ret tt)
    | Ret (Some e) =>
        mkRes (schemaEvents extapp ++ events r ++ [EvStderr e]) (heap_after r)
              (Exited (-1))
    | Panicked v =>
        mkRes (schemaEvents extapp ++ events r) (heap_after r) (Panicked v)
    | Exited c =>
        mkRes (schemaEvents extapp ++ events r) (heap_after r) (Exited c)
    end.
Proof.
  intros Hlib Hsup. by rewrite (Run_dispatched env extapp arguments ctx h).
Qed.

Lemma Run_reports_result_witness :
  Run (demoEnv captureNoFifoCtx) demoApp ["--capture"] demoHeap
  = mkRes [EvStderr ErrNoPipeProvided] demoHeap (Exited (-1)).
Proof.
  apply (Run_reports_result (demoEnv captureNoFifoCtx) demoApp ["--capture"]
           captureNoFifoCtx demoHeap).
  - intros app. reflexivity.
  - constructor.
Defined.

Lemma printed_events {A B} (r : Res A) (r' : Res B) :
  events r = events r' → printed r = printed r'.
Proof. unfold printed. by intros ->. Qed.

(** X12. Through [Run], list-interfaces mode prints a version line whose
    fields are never blank: a field the caller left empty shows the
    built-in default ([0.0.1], the project URL), a field the caller set
    shows as set; the interfaces follow in the callback's order and [Run]
    returns normally. *)
Theorem Run_version_line env extapp arguments ctx (h : Heap)
    getInterfaces ifaces :
  dispatches env arguments ctx →
  Forall (λ p, unknownType (h !! p) = None) (globalOptions extapp) →
  selectMode ctx = ListInterfaces →
  GetInterfaces extapp = Some getInterfaces →
  getInterfaces () = (ifaces, None) →
  ∃ v,
    printed (Run env extapp arguments h) = PVersion v :: (PInterface <$> ifaces)
    ∧ outcome (Run env extapp arguments h) = Ret tt
    ∧ Info v ≠ "" ∧ Help v ≠ ""
    ∧ (Info (Version extapp) = "" → Info v = "0.0.1")
    ∧ (Help (Version extapp) = "" → Help v = "https://github.com/lion7/extcap")
    ∧ (Info (Version extapp) ≠ "" → Info v = Info (Version extapp))
    ∧ (Help (Version extapp) ≠ "" → Help v = Help (Version extapp)).
Proof.
  intros Hlib Hsup Hmode Hcb Hres.
  exists (Version (configured extapp)).
  rewrite (Run_dispatched env extapp arguments ctx h Hlib Hsup).
  unfold reported. rewrite mainAction_runMode, Hmode. cbn [runMode].
  rewrite listInterfaces_run. cbn [configured GetInterfaces]. rewrite Hcb, Hres.
  cbn [fst snd outcome events heap_after].
  split; [|split; [done|]].
  - unfold printed, schemaEvents. cbn [events].
    rewrite omap_app.
    replace (omap _ (match GetAllConfigOptions extapp with
                     | Some _ => [EvGetAllConfigOptions] | None => [] end))
      with (@nil Printable) by by destruct (GetAllConfigOptions extapp).
    cbn. do 1 f_equal.
    clear. induction ifaces as [|i ifaces IH]; [done|]. cbn. by f_equal.
  - unfold configured. cbn [Version Info Help].
    destruct (String.eqb_spec (Info (Version extapp)) "") as [Hi|Hi];
      destruct (String.eqb_spec (Help (Version extapp)) "") as [Hh|Hh];
      repeat split; done.
Qed.

Lemma Run_version_line_witness :
  ∃ v,
    printed (Run (demoEnv interfacesCtx) globalOptionsApp
                 ["--extcap-interfaces"] demoHeap)
    = PVersion v :: (PInterface <$> [eth0])
    ∧ Info v = "0.0.1".
Proof.
  destruct (Run_version_line (demoEnv interfacesCtx) globalOptionsApp
              ["--extcap-interfaces"] interfacesCtx demoHeap
              (λ _, ([eth0], None)) [eth0])
    as (v & Hprinted & _ & _ & _ & Hinfo & _); try reflexivity.
  - intros app. reflexivity.
  - repeat constructor.
  - exists v. split; [exact Hprinted|]. by apply Hinfo.
Defined.

(** ** Help *)

(** X13. [mainAction] shows the help text exactly when none of the five
    mode flags is set; it then calls no callback, prints nothing else and
    returns what showing the help returned.  A mode that fails, for a
    missing flag or in a callback, does not fall back to the help text. *)
Theorem help_shown_iff_no_mode_flag env extapp ctx (h : Heap) :
  EvShowAppHelp ∈ events (mainAction env extapp ctx h)
  ↔ ctx_IsSet ctx "extcap-interfaces" = false
    ∧ ctx_IsSet ctx "extcap-dlts" = false
    ∧ ctx_IsSet ctx "extcap-config" = false
    ∧ ctx_IsSet ctx "capture" = false
    ∧ ctx_IsSet ctx "extcap-capture-filter" = false
    ∧ mainAction env extapp ctx h
      = mkRes [EvShowAppHelp] h (Ret (ctx_ShowAppHelp ctx)).
Proof.
  assert (∀ evs m, Forall (λ e, eventMode e = Some m) evs → m ≠ Help_ →
                   EvShowAppHelp ∈ evs → False) as Hnot.
  { intros evs m Hall Hm Hin. rewrite Forall_forall in Hall.
    specialize (Hall _ Hin). cbn in Hall. congruence. }
  rewrite mainAction_runMode, selectMode_cascade.
  destruct (ctx_IsSet ctx "extcap-interfaces"); cbn [runMode].
  { split; [|by intros (? & _)]. intros Hin. exfalso.
    apply (Hnot _ ListInterfaces) in Hin; [done| |done].
    rewrite listInterfaces_run.
    destruct (GetInterfaces extapp) as [f|]; [|by constructor].
    destruct (f ()).2; cbn [events]; repeat (constructor; [done|]);
      [by constructor|].
    apply Forall_fmap, Forall_forall. done. }
  destruct (ctx_IsSet ctx "extcap-dlts"); cbn [runMode].
  { split; [|by intros (_ & ? & _)]. intros Hin. exfalso.
    apply (Hnot _ ListDLTs) in Hin; [done| |done].
    rewrite listDLTs_run.
    destruct (ctx_IsSet ctx "extcap-interface"); [|by constructor].
    cbn zeta. destruct (GetDLT extapp) as [f|]; [|by constructor].
    destruct (f _).2; cbn [events]; by repeat constructor. }
  destruct (ctx_IsSet ctx "extcap-config"); cbn [runMode].
  { split; [|by intros (_ & _ & ? & _)]. intros Hin. exfalso.
    apply (Hnot _ ListConfig) in Hin; [done| |done].
    rewrite listConfig_run.
    destruct (GetConfigOptions extapp) as [f|]; [|by constructor].
    destruct (ctx_IsSet ctx "extcap-interface"); [|by constructor].
    cbn zeta. destruct (f _).2; cbn [events]; [by repeat constructor|].
    constructor; [done|]. apply for_range_from_eventMode. }
  destruct (ctx_IsSet ctx "capture"); cbn [runMode].
  { split; [|by intros (_ & _ & _ & ? & _)]. intros Hin. exfalso.
    apply (Hnot _ Capture) in Hin; [done| |done].
    rewrite capture_run.
    destruct (ctx_IsSet ctx "extcap-interface"); [|by constructor].
    destruct (ctx_IsSet ctx "fifo"); [|by constructor].
    cbn zeta. unfold openerEvent.
    destruct (rawOpener env extapp _) as [pipe [e|]];
      [destruct (OpenPipe extapp); by repeat constructor|].
    destruct (StartCapture extapp);
      destruct (OpenPipe extapp); by repeat constructor. }
  destruct (ctx_IsSet ctx "extcap-capture-filter"); cbn [runMode].
  - split; [by intros ?%elem_of_nil|]. by intros (_ & _ & _ & _ & ? & _).
  - split; [done|]. intros _. cbn. by left.
Qed.

Lemma help_shown_iff_no_mode_flag_witness :
  EvShowAppHelp ∉ events (mainAction (demoEnv dltsNoInterfaceCtx) demoApp
                            dltsNoInterfaceCtx demoHeap).
Proof.
  intros Hshown.
  apply (help_shown_iff_no_mode_flag (demoEnv dltsNoInterfaceCtx) demoApp
           dltsNoInterfaceCtx demoHeap) in Hshown as (_ & Hdlts & _).
  discriminate Hdlts.
Defined.
